(** * AeroMatch: a shallow embedding of the order book, the matching loop,
      the engine's routing and the snapshot manager.

    Conventions of the embedding.

    - [float64] prices and quantities are taken on the integer-valued floats
      of magnitude below 2^53, where Go's [<], [<=], [-] and the helper [min]
      are exact; they are written as [Z].  NaN, infinities and rounding are
      outside the model.
    - [uint64] counters are [Z] with the wrap-around of [atomic.AddUint64]
      written out.
    - An [*Order] held by a list node is mutated through the node; as every
      order sits in at most one node, the node carries the order and a write
      through the pointer rewrites the node.
    - A channel send appends to the list that stands for the channel.
    - [time.Now()] is an argument where a result depends on it, and is left
      out of [Trade]. *)

From Stdlib Require Import ZArith Lia QArith.
From stdpp Require Import base numbers list strings gmap.

Local Open Scope Z_scope.

Definition uint64_modulus : Z := 2 ^ 64.

(** [atomic.AddUint64(&c, d)]: the new value, which is also what is stored. *)
Definition AddUint64 (c d : Z) : Z := (c + d) mod uint64_modulus.

(** Two's complement wrap-around of a signed [w]-bit integer. *)
Definition wrap_signed (w : Z) (z : Z) : Z :=
  (z + 2 ^ (w - 1)) mod 2 ^ w - 2 ^ (w - 1).

(** ** package models *)
Module models.

Inductive OrderType := Limit | Market | IOC | FOK | PostOnly.
Inductive OrderSide := Buy | Sell.
Inductive OrderStatus := New | Partial | Filled | Cancelled | Rejected.

#[global] Instance OrderType_eq_dec : EqDecision OrderType.
Proof. solve_decision. Defined.
#[global] Instance OrderSide_eq_dec : EqDecision OrderSide.
Proof. solve_decision. Defined.
#[global] Instance OrderStatus_eq_dec : EqDecision OrderStatus.
Proof. solve_decision. Defined.

(** The fields of [Order] that the engine reads or writes.  [Type] is a
    keyword, so the field is [Type_]. *)
Record Order := mkOrder {
  ID : Z;
  Price : Z;
  Quantity : Z;
  Remaining : Z;
  Side : OrderSide;
  Type_ : OrderType;
  Instrument : string;
  Status : OrderStatus
}.

(** [o.Remaining = r] *)
Definition set_Remaining (o : Order) (r : Z) : Order :=
  mkOrder (ID o) (Price o) (Quantity o) r (Side o) (Type_ o)
          (Instrument o) (Status o).

Definition IsActive (o : Order) : bool :=
  bool_decide (Status o = New) || bool_decide (Status o = Partial).

Inductive ValidationError :=
  ErrInvalidQuantity | ErrInvalidPrice | ErrMissingInstrument.

(** [Validate]; [None] is Go's [nil] error.  The NaN test [o.Price != o.Price]
    is false on every price of the model. *)
Definition Validate (o : Order) : option ValidationError :=
  if Quantity o <=? 0 then Some ErrInvalidQuantity
  else if bool_decide (Type_ o = Limit) && (Price o <=? 0)
  then Some ErrInvalidPrice
  else if (String.length (Instrument o) =? 0)%nat then Some ErrMissingInstrument
  else None.

(** [Trade], its fields prefixed with [T] where [Order] has the name. *)
Record Trade := mkTrade {
  TradeID : Z;
  ExecutionID : Z;
  TPrice : Z;
  TQuantity : Z;
  MakerOrderID : Z;
  TakerOrderID : Z;
  TInstrument : string;
  TSide : OrderSide
}.

End models.

(** ** package engine: the order book *)
Module engine.
Import models.

(** Go's helper [min]. *)
Definition min (a b : Z) : Z := if a <? b then a else b.

(** The package-level counters. *)
Record Counters := mkCounters {
  executionCounter : Z;
  tradeIDCounter : Z
}.

Definition generateTradeID (g : Counters) : Z * Counters :=
  let v := AddUint64 (tradeIDCounter g) 1 in
  (v, mkCounters (executionCounter g) v).

Record OrderNode := mkNode {
  order : Order;
  quantity : Z
}.

(** [OrderSide]: the singly linked list from [head]; [tail] is its last
    node.  Nothing unlinks a node, so [head] is nil exactly when [tail]
    is.  The field [counter] is never written. *)
Definition OrderSide := list OrderNode.

Record OrderBook := mkBook {
  bids : OrderSide;
  asks : OrderSide;
  incomingOrders : list Order;
  processedTrades : list Trade
}.

Definition NewOrderBook : OrderBook := mkBook [] [] [] [].

Definition set_bids (ob : OrderBook) (l : OrderSide) : OrderBook :=
  mkBook l (asks ob) (incomingOrders ob) (processedTrades ob).
Definition set_asks (ob : OrderBook) (l : OrderSide) : OrderBook :=
  mkBook (bids ob) l (incomingOrders ob) (processedTrades ob).
Definition set_processedTrades (ob : OrderBook) (l : list Trade) : OrderBook :=
  mkBook (bids ob) (asks ob) (incomingOrders ob) l.

(** [AddOrder]: [ob.incomingOrders <- order]. *)
Definition AddOrder (ob : OrderBook) (o : Order) : OrderBook :=
  mkBook (bids ob) (asks ob) (incomingOrders ob ++ [o]) (processedTrades ob).

(** The tail insertion shared by [AddBid] and [AddAsk]: swap [tail] to the
    new node, then link the old tail to it, or set [head] when the list
    was empty. *)
Definition appendNode (side : OrderSide) (newNode : OrderNode) : OrderSide :=
  match side with
  | [] => [newNode]
  | _ :: _ => side ++ [newNode]
  end.

Definition AddBid (ob : OrderBook) (o : Order) : OrderBook :=
  set_bids ob (appendNode (bids ob) (mkNode o (Quantity o))).

Definition AddAsk (ob : OrderBook) (o : Order) : OrderBook :=
  set_asks ob (appendNode (asks ob) (mkNode o (Quantity o))).

(** [removeBid] and [removeAsk] have empty bodies. *)
Definition removeBid (ob : OrderBook) (o : Order) : OrderBook := ob.
Definition removeAsk (ob : OrderBook) (o : Order) : OrderBook := ob.

Definition GetBestBid (ob : OrderBook) : option Order :=
  match bids ob with
  | [] => None
  | head :: _ => Some (order head)
  end.

Definition GetBestAsk (ob : OrderBook) : option Order :=
  match asks ob with
  | [] => None
  | head :: _ => Some (order head)
  end.

Definition GetBestBidPrice (ob : OrderBook) : Z * bool :=
  match bids ob with
  | [] => (0, false)
  | head :: _ => (Price (order head), true)
  end.

Definition GetBestAskPrice (ob : OrderBook) : Z * bool :=
  match asks ob with
  | [] => (0, false)
  | head :: _ => (Price (order head), true)
  end.

(** [int32] count, [int64] volume: two's complement wrap-around. *)
Definition GetDepth (side : OrderSide) (price : Z) : Z :=
  fold_left (fun count n =>
               if Price (order n) =? price then wrap_signed 32 (count + 1)
               else count)
            side 0.

Definition GetTotalVolume (side : OrderSide) (price : Z) : Z :=
  fold_left (fun volume n =>
               if Price (order n) =? price
               then wrap_signed 64 (volume + quantity n)
               else volume)
            side 0.

(** A write through the [*Order] returned by [GetBestBid]/[GetBestAsk]:
    the order of the head node becomes [o]. *)
Definition writeHead (side : OrderSide) (o : Order) : OrderSide :=
  match side with
  | [] => []
  | head :: rest => mkNode o (quantity head) :: rest
  end.

Definition createTradeDraft (g : Counters) (maker taker : Order)
           (price qty : Z) : Trade * Counters :=
  let '(tid, g1) := generateTradeID g in
  let eid := AddUint64 (executionCounter g1) 1 in
  (mkTrade tid eid price qty (ID maker) (ID taker) (Instrument maker) (Side taker),
   mkCounters eid (tradeIDCounter g1)).

(** The variables of one run of the matching loop: the book, the incoming
    order, the local [remainingQty], the channel the trades are sent to
    and the counters. *)
Record MatchState := mkState {
  book : OrderBook;
  taker : Order;
  remainingQty : Z;
  out : list Trade;
  counters : Counters
}.

(** One evaluation of the loop condition and body: [Stop] when the
    condition is false or a [break] comes before the fill; [Fill again
    maker trade s] when the body fills [maker] (as it was before the
    fill), with [again = false] when the IOC [break] follows. *)
Inductive StepResult :=
| Stop (s : MatchState)
| Fill (again : bool) (maker : Order) (trade : Trade) (s : MatchState).

Definition buyStep (s : MatchState) : StepResult :=
  if 0 <? remainingQty s then
    match GetBestAsk (book s) with
    | None => Stop s
    | Some bestAsk =>
      if bool_decide (Type_ (taker s) ≠ Market)
         && (Price (taker s) <? Price bestAsk)
      then Stop s
      else
        let fillQty := min (remainingQty s) (Remaining bestAsk) in
        let fillPrice := Price bestAsk in
        let '(trade, g) :=
          createTradeDraft (counters s) bestAsk (taker s) fillPrice fillQty in
        let remainingQty' := remainingQty s - fillQty in
        let bestAsk' := set_Remaining bestAsk (Remaining bestAsk - fillQty) in
        let order' := set_Remaining (taker s) (Remaining (taker s) - fillQty) in
        let book1 := set_asks (book s) (writeHead (asks (book s)) bestAsk') in
        let book2 :=
          if Remaining bestAsk' <=? 0 then removeAsk book1 bestAsk' else book1 in
        Fill (negb (bool_decide (Type_ (taker s) = IOC) && (0 <? remainingQty')))
             bestAsk trade
             (mkState book2 order' remainingQty' (out s ++ [trade]) g)
    end
  else Stop s.

Definition sellStep (s : MatchState) : StepResult :=
  if 0 <? remainingQty s then
    match GetBestBid (book s) with
    | None => Stop s
    | Some bestBid =>
      if bool_decide (Type_ (taker s) ≠ Market)
         && (Price bestBid <? Price (taker s))
      then Stop s
      else
        let fillQty := min (remainingQty s) (Remaining bestBid) in
        let fillPrice := Price bestBid in
        let '(trade, g) :=
          createTradeDraft (counters s) bestBid (taker s) fillPrice fillQty in
        let remainingQty' := remainingQty s - fillQty in
        let bestBid' := set_Remaining bestBid (Remaining bestBid - fillQty) in
        let order' := set_Remaining (taker s) (Remaining (taker s) - fillQty) in
        let book1 := set_bids (book s) (writeHead (bids (book s)) bestBid') in
        let book2 :=
          if Remaining bestBid' <=? 0 then removeBid book1 bestBid' else book1 in
        Fill (negb (bool_decide (Type_ (taker s) = IOC) && (0 <? remainingQty')))
             bestBid trade
             (mkState book2 order' remainingQty' (out s ++ [trade]) g)
    end
  else Stop s.

(** The [for] loop, with [fuel] bounding the number of iterations; [None]
    when the loop is still running after [fuel] of them. *)
Fixpoint runLoop (step : MatchState -> StepResult) (fuel : nat)
         (s : MatchState) : option MatchState :=
  match fuel with
  | O => None
  | S n =>
    match step s with
    | Stop s' => Some s'
    | Fill false _ _ s' => Some s'
    | Fill true _ _ s' => runLoop step n s'
    end
  end.

(** The state after [n] iterations, or at the exit when the loop leaves
    before. *)
Fixpoint iterLoop (step : MatchState -> StepResult) (n : nat)
         (s : MatchState) : MatchState :=
  match n with
  | O => s
  | S n =>
    match step s with
    | Stop s' => s'
    | Fill false _ _ s' => s'
    | Fill true _ _ s' => iterLoop step n s'
    end
  end.

(** The taker rests when something is left and it is neither IOC nor FOK. *)
Definition rests (s : MatchState) : bool :=
  (0 <? remainingQty s)
  && bool_decide (Type_ (taker s) ≠ IOC)
  && bool_decide (Type_ (taker s) ≠ FOK).

(** What a call returns: the book, the order as the call leaves it and the
    counters. *)
Record Outcome := mkOutcome {
  out_book : OrderBook;
  out_order : Order;
  out_counters : Counters
}.

Definition startState (g : Counters) (ob : OrderBook) (o : Order) : MatchState :=
  mkState ob o (Quantity o) (processedTrades ob) g.

Definition ProcessBuyOrder (fuel : nat) (g : Counters) (ob : OrderBook)
           (o : Order) : option Outcome :=
  match runLoop buyStep fuel (startState g ob o) with
  | None => None
  | Some s =>
    let ob1 := set_processedTrades (book s) (out s) in
    Some (mkOutcome (if rests s then AddBid ob1 (taker s) else ob1)
                    (taker s) (counters s))
  end.

Definition ProcessSellOrder (fuel : nat) (g : Counters) (ob : OrderBook)
           (o : Order) : option Outcome :=
  match runLoop sellStep fuel (startState g ob o) with
  | None => None
  | Some s =>
    let ob1 := set_processedTrades (book s) (out s) in
    Some (mkOutcome (if rests s then AddAsk ob1 (taker s) else ob1)
                    (taker s) (counters s))
  end.

(** The body of [ProcessOrders] for one received order. *)
Definition ProcessOrder (fuel : nat) (g : Counters) (ob : OrderBook)
           (o : Order) : option Outcome :=
  match Side o with
  | Buy => ProcessBuyOrder fuel g ob o
  | Sell => ProcessSellOrder fuel g ob o
  end.

(** *** The matching engine *)

(** [orderBooks] maps an instrument to its book; [incoming] and [trades]
    are the engine's channels. *)
Record MatchingEngine := mkEngine {
  orderBooks : gmap string OrderBook;
  incoming : list Order;
  trades : list Trade
}.

Definition NewMatchingEngine : MatchingEngine := mkEngine ∅ [] [].

Definition RegisterOrderBook (m : MatchingEngine) (instrument : string)
           (bk : OrderBook) : MatchingEngine :=
  mkEngine (<[instrument := bk]> (orderBooks m)) (incoming m) (trades m).

Definition SubmitOrder (m : MatchingEngine) (o : Order) : MatchingEngine :=
  mkEngine (orderBooks m) (incoming m ++ [o]) (trades m).

(** [getOrderBook] of the draft that keeps the books in a [sync.Map]:
    [None] is the nil book it returns for an instrument that was not
    registered. *)
Definition getOrderBook (m : MatchingEngine) (instrument : string)
  : option OrderBook :=
  orderBooks m !! instrument.

(** What running [matchOrder] does to the process. *)
Inductive Routed :=
| NilDereference
| Sent (m : MatchingEngine).

(** [matchOrder] of the same draft: [book.incomingOrders <- order] reads a
    field of [book], which panics on the nil book. *)
Definition matchOrder (m : MatchingEngine) (o : Order) : Routed :=
  match getOrderBook m (Instrument o) with
  | None => NilDereference
  | Some bk =>
    Sent (mkEngine (<[Instrument o := AddOrder bk o]> (orderBooks m))
                   (incoming m) (trades m))
  end.

(** [getOrderBook] of the two drafts that keep the books in a Go map: a
    book is made for an instrument that has none. *)
Definition getOrderBook_lazy (m : MatchingEngine) (instrument : string)
  : OrderBook * MatchingEngine :=
  match orderBooks m !! instrument with
  | Some bk => (bk, m)
  | None =>
    (NewOrderBook,
     mkEngine (<[instrument := NewOrderBook]> (orderBooks m))
              (incoming m) (trades m))
  end.

(** [matchBuyOrder] and [matchSellOrder] of the last draft: the loop of
    [ProcessBuyOrder] and [ProcessSellOrder], the trades sent to
    [m.trades]. *)
Definition matchBuyOrder (fuel : nat) (g : Counters) (m_trades : list Trade)
           (bk : OrderBook) (o : Order) : option (list Trade * Outcome) :=
  match runLoop buyStep fuel (mkState bk o (Quantity o) m_trades g) with
  | None => None
  | Some s =>
    Some (out s,
          mkOutcome (if rests s then AddBid (book s) (taker s) else book s)
                    (taker s) (counters s))
  end.

Definition matchSellOrder (fuel : nat) (g : Counters) (m_trades : list Trade)
           (bk : OrderBook) (o : Order) : option (list Trade * Outcome) :=
  match runLoop sellStep fuel (mkState bk o (Quantity o) m_trades g) with
  | None => None
  | Some s =>
    Some (out s,
          mkOutcome (if rests s then AddAsk (book s) (taker s) else book s)
                    (taker s) (counters s))
  end.

(** [matchOrder] of the last draft. *)
Definition matchOrder_direct (fuel : nat) (g : Counters) (m : MatchingEngine)
           (o : Order) : option (MatchingEngine * Order * Counters) :=
  let '(bk, m1) := getOrderBook_lazy m (Instrument o) in
  let r := match Side o with
           | Buy => matchBuyOrder fuel g (trades m1) bk o
           | Sell => matchSellOrder fuel g (trades m1) bk o
           end in
  match r with
  | None => None
  | Some (tr, res) =>
    Some (mkEngine (<[Instrument o := out_book res]> (orderBooks m1))
                   (incoming m1) tr,
          out_order res, out_counters res)
  end.

(** *** The snapshot manager *)

Record PriceLevel := mkLevel {
  LPrice : Z;
  LQuantity : Z;
  Orders : Z
}.

Record SnapshotStats := mkStats {
  TotalBidQuantity : Z;
  TotalAskQuantity : Z;
  BidOrders : Z;
  AskOrders : Z;
  Spread : Z;
  MidPrice : Q
}.

Record OrderBookSnapshot := mkSnapshot {
  SInstrument : string;
  Sequence : Z;
  Timestamp : Z;
  Bids : list PriceLevel;
  Asks : list PriceLevel;
  Stats : SnapshotStats
}.

Record SnapshotManager := mkManager {
  sm_orderBooks : gmap string OrderBook;
  snapshots : gmap string OrderBookSnapshot;
  sequenceID : Z
}.

Definition NewSnapshotManager : SnapshotManager := mkManager ∅ ∅ 0.

Definition sm_RegisterOrderBook (sm : SnapshotManager) (instrument : string)
           (bk : OrderBook) : SnapshotManager :=
  mkManager (<[instrument := bk]> (sm_orderBooks sm)) (snapshots sm)
            (sequenceID sm).

Definition zeroStats : SnapshotStats := mkStats 0 0 0 0 0 0%Q.

(** [GetMarketDepth]: two empty slices of capacity [level]; filling them
    is a TODO in the source. *)
Definition GetMarketDepth (ob : OrderBook) (level : Z) : OrderBookSnapshot :=
  mkSnapshot "" 0 0 [] [] zeroStats.

Definition calculateStats (depth : OrderBookSnapshot) : SnapshotStats :=
  let '(bq, bo) :=
    fold_left (fun '(q, n) bid =>
                 (q + LQuantity bid, wrap_signed 64 (n + Orders bid)))
              (Bids depth) (0, 0) in
  let '(aq, ao) :=
    fold_left (fun '(q, n) ask =>
                 (q + LQuantity ask, wrap_signed 64 (n + Orders ask)))
              (Asks depth) (0, 0) in
  match Bids depth, Asks depth with
  | bestBid :: _, bestAsk :: _ =>
    mkStats bq aq bo ao (LPrice bestAsk - LPrice bestBid)
            (Qmake (LPrice bestBid + LPrice bestAsk) 2)
  | _, _ => mkStats bq aq bo ao 0 0%Q
  end.

(** [takeSnapshot], [now] standing for [time.Now().UnixNano()]. *)
Definition takeSnapshot (sm : SnapshotManager) (now : Z) (instrument : string)
           (bk : OrderBook) : OrderBookSnapshot * SnapshotManager :=
  let depth := GetMarketDepth bk 100 in
  let stats := calculateStats depth in
  let seq := AddUint64 (sequenceID sm) 1 in
  (mkSnapshot instrument seq now (Bids depth) (Asks depth) stats,
   mkManager (sm_orderBooks sm) (snapshots sm) seq).

(** A request for one snapshot: the clock reading, the instrument and the
    book as it is at that moment. *)
Definition Request : Type := Z * string * OrderBook.

(** Snapshots taken one after the other, in the order of the requests. *)
Fixpoint takeSnapshotsOf (sm : SnapshotManager) (reqs : list Request)
  : list OrderBookSnapshot * SnapshotManager :=
  match reqs with
  | [] => ([], sm)
  | (now, instrument, bk) :: rest =>
    let '(snap, sm1) := takeSnapshot sm now instrument bk in
    let '(snaps, sm2) := takeSnapshotsOf sm1 rest in
    (snap :: snaps, sm2)
  end.

(** [TakeSnapshots]: one snapshot per registered book, then the new map
    is published.  Go leaves the order of a map's [range] open;
    [map_to_list] is one such order.  The source reads the registered map
    through a cast to [map[string]OrderBook]; the books are taken by value
    here, as the signature of [takeSnapshot] has them. *)
Definition TakeSnapshots (sm : SnapshotManager) (now : Z) : SnapshotManager :=
  let reqs := (fun '(instrument, bk) => (now, instrument, bk))
                <$> map_to_list (sm_orderBooks sm) in
  let '(snaps, sm1) := takeSnapshotsOf sm reqs in
  mkManager (sm_orderBooks sm1)
            (list_to_map ((fun s => (SInstrument s, s)) <$> snaps))
            (sequenceID sm1).

Definition GetSnapshot (sm : SnapshotManager) (instrument : string)
  : option OrderBookSnapshot :=
  snapshots sm !! instrument.

End engine.

(** ** Runs of the loop and the inputs used below *)
Module runs.
Import models engine.

(** The step of the loop that [ProcessOrders] picks for a side. *)
Definition stepOf (sd : models.OrderSide) : MatchState → StepResult :=
  match sd with
  | Buy => buyStep
  | Sell => sellStep
  end.

(** The head order of the side opposite to a taker of side [sd]. *)
Definition bestOpposite (sd : models.OrderSide) (ob : OrderBook) : option Order :=
  match sd with
  | Buy => GetBestAsk ob
  | Sell => GetBestBid ob
  end.

(** The taker's limit price is at or beyond the maker's price. *)
Definition atOrBeyond (sd : models.OrderSide) (o m : Order) : Prop :=
  match sd with
  | Buy => Price m ≤ Price o
  | Sell => Price o ≤ Price m
  end.


(** A taker that no fill can leave and that the exhausted order at the head
    of the asks still crosses. *)
Definition stuckBuy (s : MatchState) : Prop :=
  0 < remainingQty s
  ∧ Type_ (taker s) ≠ IOC
  ∧ ∃ m, GetBestAsk (book s) = Some m ∧ Remaining m = 0
         ∧ (Type_ (taker s) = Market ∨ Price m ≤ Price (taker s)).

(** The spec's ordering of a side, on the prices from the head on: every
    price is at least as good as the ones behind it (arrival breaks ties by
    position).  It only states what a claim says of a book. *)
Fixpoint spec_sorted (better : Z → Z → bool) (prices : list Z) : bool :=
  match prices with
  | [] => true
  | p :: rest => forallb (better p) rest && spec_sorted better rest
  end.

Definition spec_bids_sorted (ob : OrderBook) : bool :=
  spec_sorted (fun p q => q <=? p) (Price ∘ order <$> bids ob).

Definition spec_asks_sorted (ob : OrderBook) : bool :=
  spec_sorted (fun p q => p <=? q) (Price ∘ order <$> asks ob).

(** The sum of the quantities of a list of trades. *)
Definition traded (l : list Trade) : Z :=
  foldr (fun t acc => TQuantity t + acc) 0 l.

(** The order [convertOrderRequest] builds for a request: [Remaining] is the
    quantity and [Status] is [New]. *)
Definition newOrder (id price qty : Z) (sd : models.OrderSide) (ty : OrderType)
           (instrument : string) : Order :=
  mkOrder id price qty qty sd ty instrument New.

Definition g0 : Counters := mkCounters 0 0.

(** The spec's crossable quantity on the ask side for a buyer [o]: the sum
    of [Remaining] over the asks whose price [o] crosses.  It only states
    what a claim assumes of a book. *)
Definition spec_crossable_asks (ob : OrderBook) (o : Order) : Z :=
  foldr (fun n acc =>
           if bool_decide (Type_ o = Market) || (Price (order n) <=? Price o)
           then Remaining (order n) + acc else acc)
        0 (asks ob).

(** Books with resting asks, built with [AddAsk]. *)
Definition askBook (l : list Order) : OrderBook :=
  fold_left AddAsk l NewOrderBook.

Definition ask_100x5 : OrderBook := askBook [newOrder 1 100 5 Sell Limit "BTC-USD"].
Definition ask_100x4 : OrderBook := askBook [newOrder 1 100 4 Sell Limit "BTC-USD"].
Definition ask_100x2x2 : OrderBook :=
  askBook [newOrder 1 100 2 Sell Limit "BTC-USD";
           newOrder 3 100 2 Sell Limit "BTC-USD"].

(** The engine as [main] sets it up. *)
Definition mainEngine : MatchingEngine :=
  fold_left (fun m instrument => RegisterOrderBook m instrument NewOrderBook)
            ["BTC-USD"; "ETH-USD"; "AAPL"; "GOOGL"]%string NewMatchingEngine.

(** The manager after [n] snapshots of one empty book. *)
Definition afterSnapshots (n : N) : SnapshotManager :=
  N.iter n (fun sm => (takeSnapshot sm 0 "BTC-USD" NewOrderBook).2)
         NewSnapshotManager.

End runs.

(** ** The book seen from a taker's side, and the queue of a book *)
Module views.
Import models engine.

(** The side an order of side [sd] is matched against, and the side it
    rests on: [ProcessBuyOrder] reads the asks and adds to the bids,
    [ProcessSellOrder] the other way round. *)
Definition oppositeSide (sd : models.OrderSide) (ob : OrderBook) : OrderSide :=
  match sd with
  | Buy => asks ob
  | Sell => bids ob
  end.

Definition ownSide (sd : models.OrderSide) (ob : OrderBook) : OrderSide :=
  match sd with
  | Buy => bids ob
  | Sell => asks ob
  end.

(** [AddBid] for a buyer, [AddAsk] for a seller. *)
Definition addOwn (sd : models.OrderSide) (ob : OrderBook) (o : Order) : OrderBook :=
  match sd with
  | Buy => AddBid ob o
  | Sell => AddAsk ob o
  end.

(** The node [AddBid] and [AddAsk] make for an order. *)
Definition nodeOf (o : Order) : OrderNode := mkNode o (Quantity o).

(** The id and price of a node's order and the node quantity: what no fill
    changes. *)
Definition nodeKey (n : OrderNode) : Z * Z * Z :=
  (ID (order n), Price (order n), quantity n).


(** The sum of the node quantities of the nodes at [price]. *)
Definition quantityAt (price : Z) (side : OrderSide) : Z :=
  foldr (fun n acc => if Price (order n) =? price then quantity n + acc else acc)
        0 side.

(** The number of nodes at [price]. *)
Definition countAt (price : Z) (side : OrderSide) : Z :=
  foldr (fun n acc => if Price (order n) =? price then 1 + acc else acc) 0 side.

(** The taker [o] crosses the maker [m]: the test of the loop that lets a
    fill happen. *)
Definition crossesHead (sd : models.OrderSide) (o m : Order) : Prop :=
  Type_ o = Market ∨ runs.atOrBeyond sd o m.

(** A loop state no iteration can leave: something is still wanted, the
    taker is not IOC, and the head of the opposite side is crossed and has
    nothing left. *)
Definition stuck (sd : models.OrderSide) (s : MatchState) : Prop :=
  0 < remainingQty s
  ∧ Type_ (taker s) ≠ IOC
  ∧ ∃ m, runs.bestOpposite sd (book s) = Some m ∧ Remaining m = 0
         ∧ crossesHead sd (taker s) m.

(** The calls that never return: a taker that is not IOC, wants a positive
    quantity and crosses a head order holding less than that. *)
Definition spins (sd : models.OrderSide) (ob : OrderBook) (o : Order) : Prop :=
  0 < Quantity o
  ∧ Type_ o ≠ IOC
  ∧ ∃ m, runs.bestOpposite sd ob = Some m ∧ crossesHead sd o m
         ∧ Remaining m < Quantity o.



(** What the trades of one call have in common. *)
Definition tradesAgainst (m o : Order) (l : list Trade) : Prop :=
  Forall (fun t => MakerOrderID t = ID m ∧ TPrice t = Price m
                   ∧ TInstrument t = Instrument m
                   ∧ TakerOrderID t = ID o ∧ TSide t = Side o) l.


(** *** Readers of a snapshot *)

(** The sums over the levels of one side of a depth view. *)
Definition sumQuantity (levels : list PriceLevel) : Z :=
  foldr (fun level acc => LQuantity level + acc) 0 levels.

Definition sumOrders (levels : list PriceLevel) : Z :=
  foldr (fun level acc => Orders level + acc) 0 levels.

Definition GetPriceLevels (s : OrderBookSnapshot) (side : models.OrderSide)
  : list PriceLevel :=
  if bool_decide (side = Buy) then Bids s else Asks s.

Definition GetBestPrice (s : OrderBookSnapshot) (side : models.OrderSide)
  : Z * bool :=
  match GetPriceLevels s side with
  | [] => (0, false)
  | level :: _ => (LPrice level, true)
  end.

(** A state of the loop with another channel for the trades. *)
Definition withOut (s : MatchState) (ch : list Trade) : MatchState :=
  mkState (book s) (taker s) (remainingQty s) ch (counters s).

End views.

(** ** package protocol: the gRPC adapter *)
Module protocol.
Import models engine.

(** Modelled from the uses in [grpc_server.go]: the generated package
    [grpcapi] is not in the source tree.  Its enums are [int32] with the
    named constants the adapter switches on; [_other] stands for any other
    value. *)
Inductive ProtoOrderType :=
| OrderType_LIMIT | OrderType_MARKET | OrderType_IOC | OrderType_FOK
| OrderType_POST_ONLY | OrderType_other (n : Z).

Inductive ProtoOrderSide :=
| OrderSide_BUY | OrderSide_SELL | OrderSide_other (n : Z).

Inductive ProtoOrderStatus := OrderStatus_PENDING | OrderStatus_REJECTED.

(** The fields of [OrderRequest] that the adapter reads. *)
Record OrderRequest := mkRequest {
  OrderId : Z;
  RPrice : Z;
  RQuantity : Z;
  RSide : ProtoOrderSide;
  ROrderType : ProtoOrderType;
  RInstrument : string
}.

(** The failures of the adapter, all reported as [codes.InvalidArgument]. *)
Inductive ConvertError :=
| UnknownOrderType (t : ProtoOrderType)
| UnknownOrderSide (s : ProtoOrderSide).

Inductive SubmitError :=
| InvalidOrder (e : ConvertError)
| ValidationFailed (e : ValidationError).

Definition convertOrderType (t : ProtoOrderType) : ConvertError + OrderType :=
  match t with
  | OrderType_LIMIT => inr Limit
  | OrderType_MARKET => inr Market
  | OrderType_IOC => inr IOC
  | OrderType_FOK => inr FOK
  | OrderType_POST_ONLY => inr PostOnly
  | OrderType_other _ => inl (UnknownOrderType t)
  end.

Definition convertOrderSide (side : ProtoOrderSide) : ConvertError + models.OrderSide :=
  match side with
  | OrderSide_BUY => inr Buy
  | OrderSide_SELL => inr Sell
  | OrderSide_other _ => inl (UnknownOrderSide side)
  end.

Definition convertOrderSideToProto (side : models.OrderSide) : ProtoOrderSide :=
  if bool_decide (side = Buy) then OrderSide_BUY else OrderSide_SELL.

Definition convertOrderRequest (req : OrderRequest) : ConvertError + Order :=
  match convertOrderType (ROrderType req) with
  | inl e => inl e
  | inr orderType =>
    match convertOrderSide (RSide req) with
    | inl e => inl e
    | inr orderSide =>
      inr (mkOrder (OrderId req) (RPrice req) (RQuantity req) (RQuantity req)
                   orderSide orderType (RInstrument req) New)
    end
  end.

(** The fields of [OrderResponse] the adapter fills, the timestamp left
    out. *)
Record OrderResponse := mkResponse {
  ROrderId : Z;
  RStatus : ProtoOrderStatus
}.

(** The unary [SubmitOrder]: the engine after the call and the response or
    the error. *)
Definition SubmitOrder (m : MatchingEngine) (req : OrderRequest)
  : MatchingEngine * (SubmitError + OrderResponse) :=
  match convertOrderRequest req with
  | inl e => (m, inl (InvalidOrder e))
  | inr o =>
    match Validate o with
    | Some e => (m, inl (ValidationFailed e))
    | None =>
      (engine.SubmitOrder m o, inr (mkResponse (ID o) OrderStatus_PENDING))
    end
  end.

(** One turn of the loop of [SubmitOrderStream] for a received request: the
    engine after it and the response sent. *)
Definition SubmitOrderStream_turn (m : MatchingEngine) (req : OrderRequest)
  : MatchingEngine * OrderResponse :=
  match convertOrderRequest req with
  | inl e => (m, mkResponse (OrderId req) OrderStatus_REJECTED)
  | inr o => (engine.SubmitOrder m o, mkResponse (ID o) OrderStatus_PENDING)
  end.

(** The requests of a stream, handled one after the other. *)
Definition SubmitOrderStream (m : MatchingEngine) (reqs : list OrderRequest)
  : MatchingEngine * list OrderResponse :=
  fold_left (fun '(m1, sent) req =>
               let '(m2, resp) := SubmitOrderStream_turn m1 req in
               (m2, sent ++ [resp]))
            reqs (m, []).

(** [convertTradeToProto], the timestamp left out: the same fields, the side
    through [convertOrderSideToProto]. *)
Record ProtoTrade := mkProtoTrade {
  PTradeId : Z;
  PExecutionId : Z;
  PPrice : Z;
  PQuantity : Z;
  PMakerOrderId : Z;
  PTakerOrderId : Z;
  PInstrument : string;
  PSide : ProtoOrderSide
}.

Definition convertTradeToProto (t : Trade) : ProtoTrade :=
  mkProtoTrade (TradeID t) (ExecutionID t) (TPrice t) (TQuantity t)
               (MakerOrderID t) (TakerOrderID t) (TInstrument t)
               (convertOrderSideToProto (TSide t)).

End protocol.

(** * Properties *)

Import models engine.

(** ** Shared facts about one iteration of the matching loop *)

Lemma min_is_Zmin a b : min a b = Z.min a b.
Proof. unfold min. destruct (Z.ltb_spec a b); lia. Qed.

Lemma not_Market_false (ty : OrderType) :
  bool_decide (ty ≠ Market) = false → ty = Market.
Proof.
  intros H. apply bool_decide_eq_false in H.
  destruct (decide (ty = Market)); [done | by destruct H].
Qed.

(** Splits a step that filled into the facts the source lines give. *)
Ltac step_inversion best :=
  match goal with
  | |- context [0 <? remainingQty ?s] =>
    destruct (Z.ltb_spec 0 (remainingQty s)); [|done]
  end;
  match goal with
  | |- context [match ?b with Some _ => _ | None => _ end] =>
    destruct b as [best|]; [|done]
  end;
  match goal with
  | |- context [bool_decide ?P && ?c] =>
    let Hbrk := fresh "Hbrk" in
    destruct (bool_decide P && c) eqn:Hbrk; [done|];
    apply andb_false_iff in Hbrk as [Hbrk|Hbrk];
    [apply not_Market_false in Hbrk | apply Z.ltb_ge in Hbrk]
  end;
  rewrite min_is_Zmin; unfold removeAsk, removeBid;
  match goal with
  | |- context [createTradeDraft ?g ?m ?o ?p ?q] =>
    destruct (createTradeDraft g m o p q) eqn:?
  end;
  match goal with
  | |- context [if ?c then _ else _] => destruct c
  end;
  intros [= <- <- <- <-].

Lemma createTradeDraft_fields g maker o price qty :
  let t := (createTradeDraft g maker o price qty).1 in
  TPrice t = price ∧ TQuantity t = qty ∧ MakerOrderID t = ID maker
  ∧ TakerOrderID t = ID o ∧ TInstrument t = Instrument maker ∧ TSide t = Side o.
Proof. done. Qed.

Lemma buyStep_Fill_inv s again m t s' :
  buyStep s = Fill again m t s' →
  let q := Z.min (remainingQty s) (Remaining m) in
  0 < remainingQty s
  ∧ GetBestAsk (book s) = Some m
  ∧ (Type_ (taker s) = Market ∨ Price m ≤ Price (taker s))
  ∧ t = (createTradeDraft (counters s) m (taker s) (Price m) q).1
  ∧ book s' = set_asks (book s)
                (writeHead (asks (book s)) (set_Remaining m (Remaining m - q)))
  ∧ taker s' = set_Remaining (taker s) (Remaining (taker s) - q)
  ∧ remainingQty s' = remainingQty s - q
  ∧ out s' = out s ++ [t]
  ∧ again = negb (bool_decide (Type_ (taker s) = IOC) && (0 <? remainingQty s')).
Proof.
  unfold buyStep. step_inversion bestAsk.
  all: match goal with H : createTradeDraft _ _ _ _ _ = _ |- _ => rewrite H end.
  all: split_and!; auto.
Qed.

Lemma sellStep_Fill_inv s again m t s' :
  sellStep s = Fill again m t s' →
  let q := Z.min (remainingQty s) (Remaining m) in
  0 < remainingQty s
  ∧ GetBestBid (book s) = Some m
  ∧ (Type_ (taker s) = Market ∨ Price (taker s) ≤ Price m)
  ∧ t = (createTradeDraft (counters s) m (taker s) (Price m) q).1
  ∧ book s' = set_bids (book s)
                (writeHead (bids (book s)) (set_Remaining m (Remaining m - q)))
  ∧ taker s' = set_Remaining (taker s) (Remaining (taker s) - q)
  ∧ remainingQty s' = remainingQty s - q
  ∧ out s' = out s ++ [t]
  ∧ again = negb (bool_decide (Type_ (taker s) = IOC) && (0 <? remainingQty s')).
Proof.
  unfold sellStep. step_inversion bestBid.
  all: match goal with H : createTradeDraft _ _ _ _ _ = _ |- _ => rewrite H end.
  all: split_and!; auto.
Qed.

Import runs.


Lemma set_Remaining_same o : set_Remaining o (Remaining o) = o.
Proof. by destruct o. Qed.

Lemma best_after_writeHead_asks ob m m' :
  GetBestAsk ob = Some m →
  GetBestAsk (set_asks ob (writeHead (asks ob) m')) = Some m'.
Proof. unfold GetBestAsk. simpl. by destruct (asks ob). Qed.

Lemma best_after_writeHead_bids ob m m' :
  GetBestBid ob = Some m →
  GetBestBid (set_bids ob (writeHead (bids ob) m')) = Some m'.
Proof. unfold GetBestBid. simpl. by destruct (bids ob). Qed.

(** The one inversion for both sides. *)
Lemma stepOf_Fill_inv sd s again m t s' :
  stepOf sd s = Fill again m t s' →
  let q := Z.min (remainingQty s) (Remaining m) in
  0 < remainingQty s
  ∧ bestOpposite sd (book s) = Some m
  ∧ (Type_ (taker s) = Market ∨ atOrBeyond sd (taker s) m)
  ∧ t = (createTradeDraft (counters s) m (taker s) (Price m) q).1
  ∧ bestOpposite sd (book s') = Some (set_Remaining m (Remaining m - q))
  ∧ taker s' = set_Remaining (taker s) (Remaining (taker s) - q)
  ∧ remainingQty s' = remainingQty s - q
  ∧ out s' = out s ++ [t]
  ∧ again = negb (bool_decide (Type_ (taker s) = IOC) && (0 <? remainingQty s')).
Proof.
  destruct sd; simpl; intros H.
  - apply buyStep_Fill_inv in H as (? & Hb & ? & ? & Hbk & ? & ? & ? & ?).
    split_and!; auto. rewrite Hbk. by eapply best_after_writeHead_asks.
  - apply sellStep_Fill_inv in H as (? & Hb & ? & ? & Hbk & ? & ? & ? & ?).
    split_and!; auto. rewrite Hbk. by eapply best_after_writeHead_bids.
Qed.


(** ** Divergence of the buy loop behind an exhausted head order *)

Lemma stuckBuy_step s :
  stuckBuy s →
  ∃ m t s', buyStep s = Fill true m t s'
            ∧ Remaining m = 0 ∧ TQuantity t = 0 ∧ stuckBuy s'
            ∧ remainingQty s' = remainingQty s.
Proof.
  destruct s as [bk o rq tr g]. unfold stuckBuy. simpl.
  intros (Hpos & Hioc & m & Hbest & Hrem & Hx).
  unfold buyStep. simpl.
  rewrite (proj2 (Z.ltb_lt _ _) Hpos), Hbest.
  assert (bool_decide (Type_ o ≠ Market) && (Price o <? Price m) = false) as ->.
  { destruct Hx as [->|Hle]; [done|].
    apply andb_false_iff. right. by apply Z.ltb_ge. }
  rewrite min_is_Zmin, Hrem, (Z.min_r rq 0) by lia.
  rewrite Z.sub_0_r, (bool_decide_eq_false_2 _ Hioc). simpl.
  eexists _, _, _. split; [reflexivity|]. simpl.
  split_and!; auto.
  exists (set_Remaining m 0). split_and!; auto.
  unfold removeAsk. replace (rq - 0) with rq by lia.
  by eapply best_after_writeHead_asks.
Qed.

Lemma stuckBuy_iter n : ∀ s,
  stuckBuy s →
  stuckBuy (iterLoop buyStep n s)
  ∧ remainingQty (iterLoop buyStep n s) = remainingQty s.
Proof.
  induction n as [|n IH]; intros s Hs; [done|].
  destruct (stuckBuy_step s Hs) as (m & t & s' & Hstep & _ & _ & Hs' & Hq).
  simpl. rewrite Hstep, <- Hq. by apply IH.
Qed.

Lemma stuckBuy_diverges fuel s : stuckBuy s → runLoop buyStep fuel s = None.
Proof.
  revert s. induction fuel as [|n IH]; intros s Hs; [done|].
  destruct (stuckBuy_step s Hs) as (m & t & s' & Hstep & _ & _ & Hs' & _).
  simpl. rewrite Hstep. by apply IH.
Qed.

(** A buyer that is not IOC and wants more than the crossable head ask holds
    is stuck after the first fill. *)
Lemma first_fill_then_stuck g ob o m :
  GetBestAsk ob = Some m →
  0 < Remaining m < Quantity o →
  Type_ o ≠ IOC →
  Type_ o = Market ∨ Price m ≤ Price o →
  ∃ t s', buyStep (startState g ob o) = Fill true m t s'
          ∧ TQuantity t = Remaining m ∧ out s' = processedTrades ob ++ [t]
          ∧ GetBestAsk (book s') = Some (set_Remaining m 0)
          ∧ remainingQty s' = Quantity o - Remaining m
          ∧ stuckBuy s'.
Proof.
  intros Hbest [Hlo Hhi] Hioc Hx. unfold buyStep, startState. simpl.
  rewrite (proj2 (Z.ltb_lt 0 (Quantity o))), Hbest by lia.
  assert (bool_decide (Type_ o ≠ Market) && (Price o <? Price m) = false) as ->.
  { destruct Hx as [->|Hle]; [done|].
    apply andb_false_iff. right. by apply Z.ltb_ge. }
  rewrite min_is_Zmin, (Z.min_r (Quantity o)) by lia.
  rewrite Z.sub_diag, (bool_decide_eq_false_2 _ Hioc). simpl.
  eexists _, _. split; [reflexivity|]. simpl. unfold removeAsk.
  assert (GetBestAsk (set_asks ob (writeHead (asks ob) (set_Remaining m 0)))
          = Some (set_Remaining m 0)) as Hb
    by by eapply best_after_writeHead_asks.
  split_and!; auto.
  unfold stuckBuy. simpl. split_and!; [lia|done|].
  exists (set_Remaining m 0). by rewrite Hb.
Qed.

Lemma ProcessBuyOrder_diverges fuel g ob o m :
  GetBestAsk ob = Some m →
  0 < Remaining m < Quantity o →
  Type_ o ≠ IOC →
  Type_ o = Market ∨ Price m ≤ Price o →
  ProcessBuyOrder fuel g ob o = None.
Proof.
  intros Hb Hq Hioc Hx.
  destruct (first_fill_then_stuck g ob o m Hb Hq Hioc Hx)
    as (t & s' & Hstep & _ & _ & _ & _ & Hs').
  unfold ProcessBuyOrder. destruct fuel as [|n]; [done|].
  simpl. rewrite Hstep. by rewrite (stuckBuy_diverges n s' Hs').
Qed.

(** ** The claims *)

(** C1 (the code departs from the claim). [AddBid] and [AddAsk] append at the
    tail, so a side is in arrival order whatever the prices: after a bid at
    99 and then a bid at 100 the insertion has broken the price ordering, and
    [GetBestBid] and [GetBestBidPrice] give the bid at 99 although a bid at
    100 rests; after an ask at 101 and then an ask at 100, [GetBestAskPrice]
    gives 101. *)
Theorem C1_best_is_first_arrival :
  let b1 := newOrder 1 99 1 Buy Limit "BTC-USD" in
  let b2 := newOrder 2 100 1 Buy Limit "BTC-USD" in
  let a1 := newOrder 3 101 1 Sell Limit "ETH-USD" in
  let a2 := newOrder 4 100 1 Sell Limit "ETH-USD" in
  (∃ r1 r2,
      ProcessBuyOrder 1 g0 NewOrderBook b1 = Some r1
      ∧ ProcessBuyOrder 1 (out_counters r1) (out_book r1) b2 = Some r2
      ∧ out_book r2 = AddBid (AddBid NewOrderBook b1) b2
      ∧ order <$> bids (out_book r2) = [b1; b2]
      ∧ spec_bids_sorted (out_book r1) = true
      ∧ spec_bids_sorted (out_book r2) = false
      ∧ GetBestBid (out_book r2) = Some b1
      ∧ GetBestBidPrice (out_book r2) = (99, true))
  ∧ (∃ r1 r2,
      ProcessSellOrder 1 g0 NewOrderBook a1 = Some r1
      ∧ ProcessSellOrder 1 (out_counters r1) (out_book r1) a2 = Some r2
      ∧ out_book r2 = AddAsk (AddAsk NewOrderBook a1) a2
      ∧ order <$> asks (out_book r2) = [a1; a2]
      ∧ spec_asks_sorted (out_book r1) = true
      ∧ spec_asks_sorted (out_book r2) = false
      ∧ GetBestAsk (out_book r2) = Some a1
      ∧ GetBestAskPrice (out_book r2) = (101, true)).
Proof.
  split; eexists _, _; split_and!; reflexivity.
Qed.

(** C2 (the code departs from the claim). A FOK buy of 10 at 100 against a
    single ask of 4 at 100: the crossable quantity is 4, below 10, yet the
    first iteration sends a trade of 4 and takes the ask's remaining from 4
    to 0; the loop then never leaves. *)
Theorem C2_fok_fills_before_any_check :
  let fok := newOrder 2 100 10 Buy FOK "BTC-USD" in
  spec_crossable_asks ask_100x4 fok = 4
  ∧ Remaining ∘ order <$> asks ask_100x4 = [4]
  ∧ (∃ m t s',
        buyStep (startState g0 ask_100x4 fok) = Fill true m t s'
        ∧ out s' = [t] ∧ TQuantity t = 4 ∧ TPrice t = 100
        ∧ Remaining ∘ order <$> asks (book s') = [0]
        ∧ Remaining (taker s') = 6)
  ∧ ∀ fuel, ProcessBuyOrder fuel g0 ask_100x4 fok = None.
Proof.
  split_and!; try reflexivity.
  - eexists _, _, _. split_and!; reflexivity.
  - intros fuel.
    apply (ProcessBuyOrder_diverges fuel g0 ask_100x4 _
             (newOrder 1 100 4 Sell Limit "BTC-USD")); simpl; try done.
    by right.
Qed.

(** C3 (the code departs from the claim). A limit buy of 5 at 100 against an
    ask of 5 at 100: the call returns, and the ask is still the head of its
    side, with remaining 0 and status [New]; the same holds on the bid side
    for a limit sell. *)
Theorem C3_exhausted_order_stays :
  let ask := newOrder 1 100 5 Sell Limit "BTC-USD" in
  let buy := newOrder 2 100 5 Buy Limit "BTC-USD" in
  (∃ r t, ProcessBuyOrder 2 g0 ask_100x5 buy = Some r
          ∧ processedTrades (out_book r) = [t] ∧ TQuantity t = 5
          ∧ order <$> asks (out_book r) = [set_Remaining ask 0]
          ∧ GetBestAsk (out_book r) = Some (set_Remaining ask 0)
          ∧ Status (set_Remaining ask 0) = New)
  ∧ (∃ r t, ProcessSellOrder 2 g0 (AddBid NewOrderBook buy) ask = Some r
            ∧ processedTrades (out_book r) = [t] ∧ TQuantity t = 5
            ∧ order <$> bids (out_book r) = [set_Remaining buy 0]
            ∧ Status (set_Remaining buy 0) = New).
Proof.
  split; eexists _, _; split_and!; reflexivity.
Qed.

(** C4 (the code departs from the claim). A market buy of 5 into a book with
    no asks leaves the loop with 5 unfilled and is added to the bids; a
    market sell into a book with no bids is added to the asks. *)
Theorem C4_market_remainder_rests :
  let mb := newOrder 2 0 5 Buy Market "BTC-USD" in
  let ms := newOrder 3 0 5 Sell Market "BTC-USD" in
  (∃ r, ProcessBuyOrder 1 g0 NewOrderBook mb = Some r
        ∧ order <$> bids (out_book r) = [mb]
        ∧ GetBestBid (out_book r) = Some mb
        ∧ Status (out_order r) = New)
  ∧ (∃ r, ProcessSellOrder 1 g0 NewOrderBook ms = Some r
          ∧ order <$> asks (out_book r) = [ms]
          ∧ GetBestAsk (out_book r) = Some ms).
Proof.
  split; eexists; split_and!; reflexivity.
Qed.

(** C5 (the code departs from the claim). A PostOnly buy of 3 at 100 while
    the best ask is 100: the order is matched as a taker, one trade of 3 at
    100 is sent and the ask's remaining goes from 5 to 2; the status stays
    [New]. *)
Theorem C5_postonly_is_matched :
  let po := newOrder 2 100 3 Buy PostOnly "BTC-USD" in
  GetBestAskPrice ask_100x5 = (100, true)
  ∧ ∃ r t, ProcessBuyOrder 2 g0 ask_100x5 po = Some r
           ∧ processedTrades (out_book r) = [t]
           ∧ TQuantity t = 3 ∧ TPrice t = 100 ∧ TakerOrderID t = 2
           ∧ Remaining ∘ order <$> asks (out_book r) = [2]
           ∧ Remaining (out_order r) = 0
           ∧ Status (out_order r) = New.
Proof.
  split; [reflexivity|]. eexists _, _; split_and!; reflexivity.
Qed.



(** C7 (counterexample). An IOC buy of 10 at 100 against 4 crossable units
    held by two asks of 2: the loop leaves after the first fill, the trades
    total 2 and the order's status is still [New]. *)
Lemma C7_ioc_counterexample :
  let ioc := newOrder 2 100 10 Buy IOC "BTC-USD" in
  spec_crossable_asks ask_100x2x2 ioc = 4
  ∧ ∃ r, ProcessBuyOrder 2 g0 ask_100x2x2 ioc = Some r
         ∧ traded (processedTrades (out_book r)) = 2
         ∧ Status (out_order r) = New
         ∧ ¬ (traded (processedTrades (out_book r)) = 4
              ∧ Status (out_order r) = Partial).
Proof.
  split; [reflexivity|]. eexists. split_and!; try reflexivity.
  intros [H _]. vm_compute in H. discriminate H.
Qed.

(** C7 (amended). An IOC buy of quantity 10 whose price is at or beyond the
    price of the ask at the head of the asks, that ask having remaining 4:
    the call returns after one fill, which sends exactly one trade, of
    quantity 4, at the ask's price; the order is left with remaining 6 and is
    not added to the book, whose bids are unchanged; the head ask is left
    with remaining 0. *)
Theorem C7_ioc_single_fill fuel g ob o m :
  Type_ o = IOC →
  Quantity o = 10 →
  Remaining o = 10 →
  GetBestAsk ob = Some m →
  Remaining m = 4 →
  Price m ≤ Price o →
  ∃ r t, ProcessBuyOrder (S fuel) g ob o = Some r
         ∧ processedTrades (out_book r) = processedTrades ob ++ [t]
         ∧ TQuantity t = 4 ∧ TPrice t = Price m
         ∧ MakerOrderID t = ID m ∧ TakerOrderID t = ID o
         ∧ Remaining (out_order r) = 6
         ∧ bids (out_book r) = bids ob
         ∧ GetBestAsk (out_book r) = Some (set_Remaining m 0).
Proof.
  intros Hty Hq Hr Hbest Hm Hx.
  unfold ProcessBuyOrder, startState. simpl. unfold buyStep. simpl.
  rewrite Hq, Hbest, Hty, Hm, Hr. simpl.
  rewrite (proj2 (Z.ltb_ge _ _) Hx). simpl.
  unfold rests. simpl. rewrite Hty. simpl.
  eexists _, _. split; [reflexivity|]. simpl. split_and!; try done.
  unfold GetBestAsk in *. simpl. by destruct (asks ob).
Qed.

Lemma C7_ioc_single_fill_witness :
  let o := newOrder 2 100 10 Buy IOC "BTC-USD" in
  let m := newOrder 1 100 4 Sell Limit "BTC-USD" in
  (Type_ o = IOC ∧ Quantity o = 10 ∧ Remaining o = 10
   ∧ GetBestAsk ask_100x4 = Some m ∧ Remaining m = 4 ∧ Price m ≤ Price o)
  ∧ ∃ r t, ProcessBuyOrder 1 g0 ask_100x4 o = Some r
           ∧ processedTrades (out_book r) = processedTrades ask_100x4 ++ [t]
           ∧ TQuantity t = 4 ∧ TPrice t = Price m
           ∧ MakerOrderID t = ID m ∧ TakerOrderID t = ID o
           ∧ Remaining (out_order r) = 6
           ∧ bids (out_book r) = bids ask_100x4
           ∧ GetBestAsk (out_book r) = Some (set_Remaining m 0).
Proof.
  intros o m.
  assert (Price m ≤ Price o) as Hx by (simpl; lia).
  split; [by split_and!|].
  exact (C7_ioc_single_fill 0 g0 ask_100x4 o m eq_refl eq_refl eq_refl eq_refl
                            eq_refl Hx).
Defined.

(** C8 (the code departs from the claim). With the books [main] registers,
    an order for another instrument makes [getOrderBook] return the nil book
    and [matchOrder] dereference it: the goroutine panics and nothing is
    reported to the submitter.  In the drafts that keep a Go map the same
    order has a book made and stored for its instrument. *)
Theorem C8_unknown_instrument_panics :
  let o := newOrder 7 10 1 Buy Limit "DOGE-USD" in
  Validate o = None
  ∧ getOrderBook mainEngine "DOGE-USD" = None
  ∧ matchOrder mainEngine o = NilDereference
  ∧ orderBooks (getOrderBook_lazy mainEngine "DOGE-USD").2 !! "DOGE-USD"
    = Some NewOrderBook.
Proof.
  split_and!; vm_compute; reflexivity.
Qed.

(** ** Snapshots *)

Lemma takeSnapshot_sequenceID sm now instrument bk :
  sequenceID (takeSnapshot sm now instrument bk).2 = AddUint64 (sequenceID sm) 1.
Proof. done. Qed.

Lemma afterSnapshots_sequence n :
  sequenceID (afterSnapshots n) = Z.of_N n mod uint64_modulus.
Proof.
  unfold afterSnapshots. induction n as [|n IH] using N.peano_ind; [done|].
  rewrite N.iter_succ, takeSnapshot_sequenceID, IH. unfold AddUint64.
  rewrite Zplus_mod_idemp_l. f_equal. lia.
Qed.

(** Two snapshots in a row when the counter is two below its modulus. *)
Lemma takeSnapshot_at_wrap sm now1 now2 i1 i2 bk1 bk2 :
  sequenceID sm = uint64_modulus - 2 →
  Sequence (takeSnapshot sm now1 i1 bk1).1 = uint64_modulus - 1
  ∧ Sequence (takeSnapshot (takeSnapshot sm now1 i1 bk1).2 now2 i2 bk2).1 = 0.
Proof. intros H. simpl. rewrite H. done. Qed.

(** What the [i]-th of a series of snapshots holds. *)
Lemma takeSnapshotsOf_lookup reqs : ∀ sm (i : nat) now instrument bk s,
  0 ≤ sequenceID sm →
  sequenceID sm + Z.of_nat (length reqs) < uint64_modulus →
  reqs !! i = Some (now, instrument, bk) →
  (takeSnapshotsOf sm reqs).1 !! i = Some s →
  s = mkSnapshot instrument (sequenceID sm + 1 + Z.of_nat i) now
                 (Bids (GetMarketDepth bk 100)) (Asks (GetMarketDepth bk 100))
                 (calculateStats (GetMarketDepth bk 100)).
Proof.
  induction reqs as [|[[now0 ins0] bk0] rest IH];
    intros sm i now instrument bk s Hlo Hhi Hreq Hs; [done|].
  simpl in Hs, Hhi.
  destruct (takeSnapshotsOf _ rest) as [snaps sm2] eqn:Hrest.
  assert ((sequenceID sm + 1) mod uint64_modulus = sequenceID sm + 1) as Hmod
    by (apply Z.mod_small; lia).
  destruct i as [|i]; simpl in Hreq, Hs.
  - injection Hreq as -> -> ->. injection Hs as <-.
    unfold AddUint64. rewrite Hmod. f_equal. lia.
  - specialize (IH (mkManager (sm_orderBooks sm) (snapshots sm)
                              (AddUint64 (sequenceID sm) 1))
                   i now instrument bk s).
    rewrite Hrest in IH. simpl in IH. unfold AddUint64 in IH.
    rewrite Hmod in IH. rewrite IH; [f_equal; lia|lia|lia|done|done].
Qed.

(** C9 (counterexample). After 2^64 - 2 snapshots the next two snapshots of
    one untouched book carry the sequences 2^64 - 1 and 0: the second is not
    greater than the first. *)
Lemma C9_sequence_wraps :
  let sm := afterSnapshots (2 ^ 64 - 2) in
  let first := takeSnapshot sm 10 "BTC-USD" NewOrderBook in
  let second := takeSnapshot first.2 20 "BTC-USD" NewOrderBook in
  Sequence first.1 = 2 ^ 64 - 1
  ∧ Sequence second.1 = 0
  ∧ ¬ Sequence first.1 < Sequence second.1.
Proof.
  intros sm first second.
  assert (sequenceID sm = uint64_modulus - 2) as Hsm
    by (unfold sm; rewrite afterSnapshots_sequence; reflexivity).
  destruct (takeSnapshot_at_wrap sm 10 20 "BTC-USD" "BTC-USD"
              NewOrderBook NewOrderBook Hsm) as [H1 H2].
  fold first in H1, H2. fold second in H2.
  rewrite H1, H2. split_and!; [reflexivity|reflexivity|].
  unfold uint64_modulus. lia.
Qed.

(** C9 (amended). In a series of snapshots taken by one manager whose
    counter does not reach 2^64 during the series, a later snapshot has a
    strictly greater sequence than an earlier one, whatever the instruments,
    and two snapshots of a book in the same state have the same [Bids],
    [Asks] and [Stats]. *)
Theorem C9_snapshots_in_series sm reqs (i j : nat) ri rj si sj :
  0 ≤ sequenceID sm →
  sequenceID sm + Z.of_nat (length reqs) < uint64_modulus →
  (i < j)%nat →
  reqs !! i = Some ri →
  reqs !! j = Some rj →
  (takeSnapshotsOf sm reqs).1 !! i = Some si →
  (takeSnapshotsOf sm reqs).1 !! j = Some sj →
  Sequence si < Sequence sj
  ∧ (ri.2 = rj.2 → Bids si = Bids sj ∧ Asks si = Asks sj ∧ Stats si = Stats sj).
Proof.
  intros Hlo Hhi Hij Hri Hrj Hsi Hsj.
  destruct ri as [[nowi insi] bki], rj as [[nowj insj] bkj].
  rewrite (takeSnapshotsOf_lookup reqs sm i _ _ _ si Hlo Hhi Hri Hsi).
  rewrite (takeSnapshotsOf_lookup reqs sm j _ _ _ sj Hlo Hhi Hrj Hsj).
  simpl. split; [lia|]. by intros ->.
Qed.

Lemma C9_snapshots_in_series_witness :
  let reqs := [(10, "BTC-USD"%string, ask_100x5); (10, "ETH-USD"%string, NewOrderBook);
               (20, "BTC-USD"%string, ask_100x5)] in
  let snaps := (takeSnapshotsOf NewSnapshotManager reqs).1 in
  ∃ s0 s2, snaps !! 0%nat = Some s0 ∧ snaps !! 2%nat = Some s2
           ∧ Sequence s0 < Sequence s2
           ∧ Bids s0 = Bids s2 ∧ Asks s0 = Asks s2 ∧ Stats s0 = Stats s2.
Proof.
  intros reqs snaps. eexists _, _.
  split; [reflexivity|]. split; [reflexivity|].
  assert (0 ≤ sequenceID NewSnapshotManager) as Hlo by (simpl; lia).
  assert (sequenceID NewSnapshotManager + Z.of_nat (length reqs) < uint64_modulus)
    as Hhi by (unfold uint64_modulus; simpl; lia).
  assert (0 < 2)%nat as Hij by lia.
  destruct (C9_snapshots_in_series NewSnapshotManager reqs 0 2 _ _ _ _
              Hlo Hhi Hij eq_refl eq_refl eq_refl eq_refl) as [Hseq Hsame].
  destruct (Hsame eq_refl) as (Hb & Ha & Hs).
  split_and!; [exact Hseq | exact Hb | exact Ha | exact Hs].
Defined.

(** C10 (the code departs from the claim). A limit buy of 10 at 100 against
    a single ask of 5 at 100: the first fill exhausts the ask, [removeAsk]
    leaves it at the head, and from then on every iteration sends a trade of
    quantity 0 against it and goes round again; no number of iterations ends
    the loop. *)
Theorem C10_loop_never_ends :
  let buy := newOrder 2 100 10 Buy Limit "BTC-USD" in
  ∃ m t s1,
    buyStep (startState g0 ask_100x5 buy) = Fill true m t s1
    ∧ TQuantity t = 5
    ∧ (Remaining <$> GetBestAsk (book s1)) = Some 0
    ∧ remainingQty s1 = 5
    ∧ (∀ n, ∃ m' t' s', buyStep (iterLoop buyStep n s1) = Fill true m' t' s'
                        ∧ Remaining m' = 0 ∧ TQuantity t' = 0
                        ∧ remainingQty s' = 5)
    ∧ ∀ fuel, ProcessBuyOrder fuel g0 ask_100x5 buy = None.
Proof.
  intros buy.
  set (m := newOrder 1 100 5 Sell Limit "BTC-USD").
  assert (Type_ buy = Market ∨ Price m ≤ Price buy) as Hx by (right; simpl; lia).
  assert (0 < Remaining m < Quantity buy) as Hq by (simpl; lia).
  destruct (first_fill_then_stuck g0 ask_100x5 buy m eq_refl Hq
              ltac:(done) Hx) as (t & s1 & Hstep & Ht & _ & Hbest & Hrq & Hs1).
  exists m, t, s1. split_and!; try done.
  - by rewrite Hbest.
  - intros n. destruct (stuckBuy_iter n s1 Hs1) as [Hs Hn].
    destruct (stuckBuy_step _ Hs) as (m' & t' & s' & Hstep' & Hm & Ht' & _ & Hq').
    exists m', t', s'. split_and!; auto. by rewrite Hq', Hn.
  - intros fuel. by apply (ProcessBuyOrder_diverges fuel g0 ask_100x5 buy m).
Qed.

(** * Further properties of the code *)

Import views.

(** ** One iteration, for either side *)

Lemma buyStep_Fill_counters s again m t s' :
  buyStep s = Fill again m t s' →
  counters s' = (createTradeDraft (counters s) m (taker s) (Price m)
                   (Z.min (remainingQty s) (Remaining m))).2.
Proof.
  unfold buyStep. step_inversion bestAsk.
  all: match goal with H : createTradeDraft _ _ _ _ _ = _ |- _ => by rewrite H end.
Qed.

Lemma sellStep_Fill_counters s again m t s' :
  sellStep s = Fill again m t s' →
  counters s' = (createTradeDraft (counters s) m (taker s) (Price m)
                   (Z.min (remainingQty s) (Remaining m))).2.
Proof.
  unfold sellStep. step_inversion bestBid.
  all: match goal with H : createTradeDraft _ _ _ _ _ = _ |- _ => by rewrite H end.
Qed.

Lemma bestOpposite_head sd ob :
  bestOpposite sd ob = order <$> head (oppositeSide sd ob).
Proof.
  destruct sd; simpl; unfold GetBestAsk, GetBestBid;
    by match goal with |- context [match ?l with [] => _ | _ :: _ => _ end] =>
         destruct l end.
Qed.

(** Everything a fill changes. *)
Lemma stepOf_Fill_frame sd s again m t s' :
  stepOf sd s = Fill again m t s' →
  let q := Z.min (remainingQty s) (Remaining m) in
  oppositeSide sd (book s')
  = writeHead (oppositeSide sd (book s)) (set_Remaining m (Remaining m - q))
  ∧ ownSide sd (book s') = ownSide sd (book s)
  ∧ incomingOrders (book s') = incomingOrders (book s)
  ∧ processedTrades (book s') = processedTrades (book s)
  ∧ tradeIDCounter (counters s') = AddUint64 (tradeIDCounter (counters s)) 1
  ∧ executionCounter (counters s') = AddUint64 (executionCounter (counters s)) 1
  ∧ TradeID t = AddUint64 (tradeIDCounter (counters s)) 1
  ∧ ExecutionID t = AddUint64 (executionCounter (counters s)) 1.
Proof.
  destruct sd; simpl; intros H.
  - pose proof (buyStep_Fill_counters _ _ _ _ _ H) as Hc.
    apply buyStep_Fill_inv in H as (_ & _ & _ & -> & -> & _).
    by rewrite Hc.
  - pose proof (sellStep_Fill_counters _ _ _ _ _ H) as Hc.
    apply sellStep_Fill_inv in H as (_ & _ & _ & -> & -> & _).
    by rewrite Hc.
Qed.

(** The loop leaves without a fill exactly when nothing is wanted, the
    opposite side is empty, or its head is not crossed. *)
Lemma stepOf_Stop_inv sd s s' :
  stepOf sd s = Stop s' →
  s' = s
  ∧ (remainingQty s ≤ 0
     ∨ bestOpposite sd (book s) = None
     ∨ ∃ m, bestOpposite sd (book s) = Some m ∧ ¬ crossesHead sd (taker s) m).
Proof.
  unfold crossesHead.
  destruct sd; simpl; [unfold buyStep|unfold sellStep]; simpl.
  all: destruct (Z.ltb_spec 0 (remainingQty s)); [|intros [= <-]; split; [done|left; lia]].
  all: match goal with
       | |- context [match ?b with Some _ => _ | None => _ end] =>
         destruct b as [best|]; [|intros [= <-]; split; [done|by right; left]]
       end.
  all: match goal with
       | |- context [bool_decide ?P && ?c] =>
         destruct (bool_decide P && c) eqn:Hbrk
       end.
  all: try done.
  all: intros [= <-]; split; [done|]; right; right; exists best; split; [done|].
  all: apply andb_true_iff in Hbrk as [Hm Hp];
    apply bool_decide_eq_true in Hm; apply Z.ltb_lt in Hp.
  all: intros [?|?]; [done|lia].
Qed.

(** A crossed head is filled. *)
Lemma stepOf_fills sd s m :
  0 < remainingQty s →
  bestOpposite sd (book s) = Some m →
  crossesHead sd (taker s) m →
  ∃ again t s', stepOf sd s = Fill again m t s'.
Proof.
  intros Hpos Hbest Hx.
  destruct (stepOf sd s) as [s'|again m' t s'] eqn:Hstep.
  - apply stepOf_Stop_inv in Hstep as [_ [?|[Hn|(m' & Hm' & Hnx)]]];
      [lia|congruence|].
    rewrite Hbest in Hm'. by injection Hm' as <-.
  - pose proof (stepOf_Fill_inv _ _ _ _ _ _ Hstep) as (_ & Hb & _).
    rewrite Hbest in Hb. injection Hb as <-. by eexists _, _, _.
Qed.

Lemma iter_bump n c :
  Nat.iter n (fun c => AddUint64 c 1) (AddUint64 c 1)
  = AddUint64 (Nat.iter n (fun c => AddUint64 c 1) c) 1.
Proof. induction n as [|n IH]; [done|]. simpl. by rewrite IH. Qed.

Lemma writeHead_twice l a b : writeHead (writeHead l a) b = writeHead l b.
Proof. by destruct l. Qed.

Lemma bestOpposite_writeHead sd s s' (m m' : Order) :
  bestOpposite sd (book s) = Some m →
  oppositeSide sd (book s') = writeHead (oppositeSide sd (book s)) m' →
  bestOpposite sd (book s') = Some m'.
Proof.
  rewrite !bestOpposite_head. intros H Hw. rewrite Hw.
  by destruct (oppositeSide sd (book s)).
Qed.

(** A finished run of the loop, summed up: the trades it sent, all against
    the head of the opposite side, what is left of the taker and of that
    head, and how far the counters went. *)
Lemma runLoop_summary sd fuel : ∀ s sf,
  runLoop (stepOf sd) fuel s = Some sf →
  ∃ new,
    out sf = out s ++ new
    ∧ taker sf = set_Remaining (taker s) (Remaining (taker s) - traded new)
    ∧ remainingQty sf = remainingQty s - traded new
    ∧ ownSide sd (book sf) = ownSide sd (book s)
    ∧ incomingOrders (book sf) = incomingOrders (book s)
    ∧ processedTrades (book sf) = processedTrades (book s)
    ∧ tradeIDCounter (counters sf)
      = Nat.iter (length new) (fun c => AddUint64 c 1) (tradeIDCounter (counters s))
    ∧ executionCounter (counters sf)
      = Nat.iter (length new) (fun c => AddUint64 c 1) (executionCounter (counters s))
    ∧ match new with
      | [] => oppositeSide sd (book sf) = oppositeSide sd (book s)
      | _ :: _ =>
        ∃ m, bestOpposite sd (book s) = Some m
             ∧ crossesHead sd (taker s) m
             ∧ oppositeSide sd (book sf)
               = writeHead (oppositeSide sd (book s))
                           (set_Remaining m (Remaining m - traded new))
             ∧ tradesAgainst m (taker s) new
      end.
Proof.
  induction fuel as [|fuel IH]; intros s sf Hrun; [done|].
  simpl in Hrun. destruct (stepOf sd s) as [s'|again m t s'] eqn:Hstep.
  - injection Hrun as <-. apply stepOf_Stop_inv in Hstep as [-> _].
    exists []. simpl. rewrite app_nil_r, Z.sub_0_r, Z.sub_0_r.
    by rewrite set_Remaining_same.
  - pose proof (stepOf_Fill_inv _ _ _ _ _ _ Hstep)
      as (Hpos & Hbest & Hx & Ht & _ & Htk & Hrq & Hout & _).
    pose proof (stepOf_Fill_frame _ _ _ _ _ _ Hstep)
      as (Hopp & Hown & Hinc & Hpt & Htid & Heid & _ & _).
    pose proof (createTradeDraft_fields (counters s) m (taker s) (Price m)
                  (Z.min (remainingQty s) (Remaining m))) as Hf.
    rewrite <- Ht in Hf. simpl in Hf. destruct Hf as (Hp & Hq & Hmk & Htkr & Hins & Hsd).
    assert (tradesAgainst m (taker s) [t]) as Hone
      by (apply Forall_singleton; split_and!; done).
    destruct again.
    + apply IH in Hrun as (new & Ho & Htk' & Hrq' & Hown' & Hinc' & Hpt'
                           & Htid' & Heid' & Hrest).
      exists (t :: new). simpl. rewrite Hq.
      split_and!.
      * by rewrite Ho, Hout, <- app_assoc.
      * rewrite Htk', Htk. simpl. f_equal. lia.
      * lia.
      * congruence.
      * congruence.
      * congruence.
      * by rewrite Htid', Htid, iter_bump.
      * by rewrite Heid', Heid, iter_bump.
      * exists m. split_and!; [done|done| |].
        -- destruct new as [|t' new'].
           ++ rewrite Hrest, Hopp. simpl. f_equal. f_equal. lia.
           ++ destruct Hrest as (m1 & Hb1 & _ & Hopp1 & _).
              rewrite (bestOpposite_writeHead sd s s' m _ Hbest Hopp) in Hb1.
              injection Hb1 as <-.
              rewrite Hopp1, Hopp, writeHead_twice. simpl.
              f_equal. f_equal. lia.
        -- apply Forall_cons. split; [by inversion Hone|].
           destruct new as [|t' new']; [done|].
           destruct Hrest as (m1 & Hb1 & _ & _ & Hall).
           rewrite (bestOpposite_writeHead sd s s' m _ Hbest Hopp) in Hb1.
           injection Hb1 as <-. rewrite Htk in Hall. exact Hall.
    + injection Hrun as <-. exists [t]. simpl. rewrite Hq, Z.add_0_r.
      split_and!; try done. by exists m.
Qed.

(** ** One call of [ProcessBuyOrder] or [ProcessSellOrder] *)

Lemma ProcessOrder_runLoop fuel g ob o :
  ProcessOrder fuel g ob o
  = match runLoop (stepOf (Side o)) fuel (startState g ob o) with
    | None => None
    | Some s =>
      let ob1 := set_processedTrades (book s) (out s) in
      Some (mkOutcome (if rests s then addOwn (Side o) ob1 (taker s) else ob1)
                      (taker s) (counters s))
    end.
Proof. unfold ProcessOrder, ProcessBuyOrder, ProcessSellOrder. by destruct (Side o). Qed.

Lemma appendNode_app side n : appendNode side n = side ++ [n].
Proof. by destruct side. Qed.

Lemma addOwn_sides sd ob o :
  ownSide sd (addOwn sd ob o) = ownSide sd ob ++ [nodeOf o]
  ∧ oppositeSide sd (addOwn sd ob o) = oppositeSide sd ob
  ∧ incomingOrders (addOwn sd ob o) = incomingOrders ob
  ∧ processedTrades (addOwn sd ob o) = processedTrades ob.
Proof. destruct sd; simpl; by rewrite appendNode_app. Qed.

Lemma set_processedTrades_sides sd ob l :
  ownSide sd (set_processedTrades ob l) = ownSide sd ob
  ∧ oppositeSide sd (set_processedTrades ob l) = oppositeSide sd ob.
Proof. by destruct sd. Qed.


(** The summary of a run, read on what the call returns. *)
Lemma ProcessOrder_summary fuel g ob o r :
  ProcessOrder fuel g ob o = Some r →
  ∃ new,
    processedTrades (out_book r) = processedTrades ob ++ new
    ∧ out_order r = set_Remaining o (Remaining o - traded new)
    ∧ incomingOrders (out_book r) = incomingOrders ob
    ∧ ownSide (Side o) (out_book r)
      = (if (0 <? Quantity o - traded new)
            && bool_decide (Type_ o ≠ IOC) && bool_decide (Type_ o ≠ FOK)
         then ownSide (Side o) ob ++ [nodeOf (out_order r)]
         else ownSide (Side o) ob)
    ∧ tradeIDCounter (out_counters r)
      = Nat.iter (length new) (fun c => AddUint64 c 1) (tradeIDCounter g)
    ∧ executionCounter (out_counters r)
      = Nat.iter (length new) (fun c => AddUint64 c 1) (executionCounter g)
    ∧ match new with
      | [] => oppositeSide (Side o) (out_book r) = oppositeSide (Side o) ob
      | _ :: _ =>
        ∃ m, bestOpposite (Side o) ob = Some m
             ∧ crossesHead (Side o) o m
             ∧ oppositeSide (Side o) (out_book r)
               = writeHead (oppositeSide (Side o) ob)
                           (set_Remaining m (Remaining m - traded new))
             ∧ tradesAgainst m o new
      end.
Proof.
  rewrite ProcessOrder_runLoop.
  destruct (runLoop _ _ _) as [sf|] eqn:Hrun; [|done].
  intros [= <-].
  apply runLoop_summary in Hrun
    as (new & Hout & Htk & Hrq & Hown & Hinc & _ & Htid & Heid & Hrest).
  simpl in Hout, Htk, Hrq, Hown, Hinc, Htid, Heid, Hrest.
  exists new. simpl. unfold rests. rewrite Hrq, Htk. simpl.
  set (c := (0 <? Quantity o - traded new)
            && bool_decide (Type_ o ≠ IOC) && bool_decide (Type_ o ≠ FOK)).
  set (ob1 := set_processedTrades (book sf) (out sf)).
  assert (ownSide (Side o) ob1 = ownSide (Side o) ob
          ∧ oppositeSide (Side o) ob1 = oppositeSide (Side o) (book sf)
          ∧ incomingOrders ob1 = incomingOrders ob
          ∧ processedTrades ob1 = processedTrades ob ++ new) as (H1 & H2 & H3 & H4).
  { unfold ob1. destruct (set_processedTrades_sides (Side o) (book sf) (out sf))
      as [-> ->]. simpl. by rewrite Hown, Hinc, Hout. }
  destruct (addOwn_sides (Side o) ob1
              (set_Remaining o (Remaining o - traded new)))
    as (A1 & A2 & A3 & A4).
  split_and!; try done.
  - by destruct c; rewrite ?A4.
  - by destruct c; rewrite ?A3.
  - destruct c; by rewrite ?A1, H1.
  - destruct new as [|t new'].
    + destruct c; by rewrite ?A2, H2.
    + destruct Hrest as (m & Hb & Hx & Hopp & Hall). exists m.
      split_and!; try done. destruct c; by rewrite ?A2, H2.
Qed.





Lemma nodeKey_writeHead side m r :
  order <$> head side = Some m →
  nodeKey <$> writeHead side (set_Remaining m r) = nodeKey <$> side.
Proof. destruct side as [|n rest]; [done|]. simpl. by intros [= <-]. Qed.

Lemma tail_writeHead side o : tail (writeHead side o) = tail side.
Proof. by destruct side. Qed.

(** X3: nothing leaves the book.  When a call returns, the opposite side has
    the same nodes in the same order, with the same ids, prices and node
    quantities (only the head's [Remaining] can differ), the orders behind
    the head are untouched, the queue of incoming orders is untouched, and
    the order's own side still begins with all it held. *)
Theorem call_never_unlinks fuel g ob o r :
  ProcessOrder fuel g ob o = Some r →
  nodeKey <$> oppositeSide (Side o) (out_book r)
  = nodeKey <$> oppositeSide (Side o) ob
  ∧ tail (oppositeSide (Side o) (out_book r)) = tail (oppositeSide (Side o) ob)
  ∧ incomingOrders (out_book r) = incomingOrders ob
  ∧ ownSide (Side o) ob `prefix_of` ownSide (Side o) (out_book r).
Proof.
  intros H. apply ProcessOrder_summary in H
    as (new & _ & _ & Hinc & Hown & _ & _ & Hrest).
  assert (ownSide (Side o) ob `prefix_of` ownSide (Side o) (out_book r)) as Hp.
  { rewrite Hown. destruct (_ && _); [by eexists|done]. }
  destruct new as [|t new']; [by rewrite Hrest|].
  destruct Hrest as (m & Hb & _ & -> & _). rewrite bestOpposite_head in Hb.
  by rewrite (nodeKey_writeHead _ m _ Hb), tail_writeHead.
Qed.

Lemma call_never_unlinks_witness :
  let o := newOrder 2 100 5 Buy Limit "BTC-USD" in
  ∃ r, ProcessOrder 2 g0 ask_100x5 o = Some r
       ∧ nodeKey <$> oppositeSide (Side o) (out_book r)
         = nodeKey <$> oppositeSide (Side o) ask_100x5
       ∧ tail (oppositeSide (Side o) (out_book r))
         = tail (oppositeSide (Side o) ask_100x5)
       ∧ incomingOrders (out_book r) = incomingOrders ask_100x5
       ∧ ownSide (Side o) ask_100x5 `prefix_of` ownSide (Side o) (out_book r).
Proof.
  intros o. eexists. split; [reflexivity|].
  exact (call_never_unlinks 2 g0 ask_100x5 o _ eq_refl).
Defined.



(** ** Trade and execution numbers *)

Lemma iter_bump_closed n c :
  0 ≤ c < uint64_modulus →
  Nat.iter n (fun c => AddUint64 c 1) c = (c + Z.of_nat n) mod uint64_modulus.
Proof.
  intros Hc. induction n as [|n IH].
  - simpl. rewrite Z.add_0_r, Z.mod_small; [done|lia].
  - simpl. rewrite IH. unfold AddUint64.
    rewrite Zplus_mod_idemp_l. f_equal. lia.
Qed.

Lemma runLoop_numbers sd fuel : ∀ s sf new,
  runLoop (stepOf sd) fuel s = Some sf →
  out sf = out s ++ new →
  ∀ (k : nat) t, new !! k = Some t →
    TradeID t = Nat.iter (S k) (fun c => AddUint64 c 1) (tradeIDCounter (counters s))
    ∧ ExecutionID t
      = Nat.iter (S k) (fun c => AddUint64 c 1) (executionCounter (counters s)).
Proof.
  induction fuel as [|fuel IH]; intros s sf new Hrun Hnew k t Hk; [done|].
  simpl in Hrun. destruct (stepOf sd s) as [s'|again m t0 s'] eqn:Hstep.
  - injection Hrun as <-. apply stepOf_Stop_inv in Hstep as [-> _].
    rewrite <- (app_nil_r (out s)) in Hnew at 1.
    apply app_inv_head in Hnew as <-. done.
  - pose proof (stepOf_Fill_inv _ _ _ _ _ _ Hstep) as (_ & _ & _ & _ & _ & _ & _ & Hout & _).
    pose proof (stepOf_Fill_frame _ _ _ _ _ _ Hstep)
      as (_ & _ & _ & _ & Htid & Heid & Ht1 & Ht2).
    assert (∀ rest, new = t0 :: rest → k = 0%nat → t = t0) as Hhead
      by (intros rest -> ->; by injection Hk).
    destruct again.
    + pose proof (runLoop_summary sd fuel s' sf Hrun) as (new' & Hout' & _).
      rewrite Hout', Hout, <- app_assoc in Hnew. apply app_inv_head in Hnew as <-.
      destruct k as [|k]; simpl in Hk.
      * injection Hk as <-. done.
      * destruct (IH s' sf new' Hrun Hout' k t Hk) as [H1 H2].
        rewrite H1, H2, Htid, Heid. simpl. by rewrite !iter_bump.
    + injection Hrun as <-. rewrite Hout in Hnew.
      apply app_inv_head in Hnew as <-.
      destruct k as [|k]; simpl in Hk; [|done]. injection Hk as <-. done.
Qed.

(** X5: how trades are numbered.  With both counters in the range of
    [uint64], the [k]-th trade a call sends (from 0) has trade id and
    execution id the counter's value at the start plus [k + 1], modulo 2^64,
    and the call leaves each counter advanced by the number of trades sent,
    modulo 2^64. *)
Theorem call_numbers_trades fuel g ob o r new :
  0 ≤ tradeIDCounter g < uint64_modulus →
  0 ≤ executionCounter g < uint64_modulus →
  ProcessOrder fuel g ob o = Some r →
  processedTrades (out_book r) = processedTrades ob ++ new →
  (∀ (k : nat) t, new !! k = Some t →
     TradeID t = (tradeIDCounter g + Z.of_nat k + 1) mod uint64_modulus
     ∧ ExecutionID t = (executionCounter g + Z.of_nat k + 1) mod uint64_modulus)
  ∧ tradeIDCounter (out_counters r)
    = (tradeIDCounter g + Z.of_nat (length new)) mod uint64_modulus
  ∧ executionCounter (out_counters r)
    = (executionCounter g + Z.of_nat (length new)) mod uint64_modulus.
Proof.
  intros Hc1 Hc2 H Hnew.
  pose proof (ProcessOrder_summary _ _ _ _ _ H)
    as (new' & Hpt & _ & _ & _ & Htid & Heid & _).
  rewrite Hpt in Hnew. apply app_inv_head in Hnew as ->.
  rewrite Htid, Heid, !iter_bump_closed by done. split; [|done].
  intros k t Hk. rewrite ProcessOrder_runLoop in H.
  destruct (runLoop _ _ _) as [sf|] eqn:Hrun; [|done].
  injection H as <-.
  pose proof (runLoop_summary _ _ _ _ Hrun) as (new' & Hout & _).
  assert (new' = new) as ->.
  { simpl in Hpt. destruct (rests sf); simpl in Hpt;
      [destruct (addOwn_sides (Side o) (set_processedTrades (book sf) (out sf))
                   (taker sf)) as (_ & _ & _ & Hpt'); rewrite Hpt' in Hpt|];
      simpl in Hpt; rewrite Hout in Hpt; simpl in Hpt;
      by apply app_inv_head in Hpt. }
  destruct (runLoop_numbers _ _ _ _ _ Hrun Hout k t Hk) as [-> ->].
  simpl counters. simpl tradeIDCounter. simpl executionCounter.
  rewrite !iter_bump_closed by done.
  split; f_equal; lia.
Qed.

Lemma call_numbers_trades_witness :
  let o := newOrder 2 100 3 Buy Limit "BTC-USD" in
  let g := mkCounters (2 ^ 64 - 1) 7 in
  ∃ r t, ProcessOrder 2 g ask_100x5 o = Some r
         ∧ processedTrades (out_book r) = processedTrades ask_100x5 ++ [t]
         ∧ TradeID t = 8 ∧ ExecutionID t = 0
         ∧ tradeIDCounter (out_counters r) = 8
         ∧ executionCounter (out_counters r) = 0.
Proof.
  intros o g. eexists _, _. split; [reflexivity|]. split; [reflexivity|].
  assert (0 ≤ tradeIDCounter g < uint64_modulus) as H1
    by (unfold uint64_modulus; simpl; lia).
  assert (0 ≤ executionCounter g < uint64_modulus) as H2
    by (unfold uint64_modulus; simpl; lia).
  destruct (call_numbers_trades 2 g ask_100x5 o _ [_] H1 H2 eq_refl eq_refl)
    as (Hk & Ht & He).
  destruct (Hk 0%nat _ eq_refl) as [Hk1 Hk2].
  split_and!; [exact Hk1 | exact Hk2 | exact Ht | exact He].
Defined.

(** ** Which calls return *)

Lemma stepOf_stops sd s :
  remainingQty s ≤ 0
  ∨ bestOpposite sd (book s) = None
  ∨ (∃ m, bestOpposite sd (book s) = Some m ∧ ¬ crossesHead sd (taker s) m) →
  stepOf sd s = Stop s.
Proof.
  intros Hc. destruct (stepOf sd s) as [s'|again m t s'] eqn:Hstep.
  - by apply stepOf_Stop_inv in Hstep as [-> _].
  - apply stepOf_Fill_inv in Hstep as (Hpos & Hb & Hx & _).
    destruct Hc as [?|[Hn|(m' & Hm' & Hnx)]]; [lia|congruence|].
    rewrite Hb in Hm'. injection Hm' as <-. by destruct Hnx.
Qed.

Lemma crossesHead_set_Remaining sd o m a b :
  crossesHead sd (set_Remaining o a) (set_Remaining m b) ↔ crossesHead sd o m.
Proof. unfold crossesHead. by destruct sd. Qed.

(** After a fill that goes round again, either nothing more is wanted or
    the loop is stuck. *)
Lemma after_fill_stuck sd s m t s' :
  stepOf sd s = Fill true m t s' →
  0 < remainingQty s' →
  stuck sd s'.
Proof.
  intros Hstep Hpos.
  apply stepOf_Fill_inv in Hstep
    as (Hrq & Hb & Hx & _ & Hb' & Htk & Hq & _ & Hagain).
  assert (Type_ (taker s) ≠ IOC) as Hioc.
  { intros Hi. rewrite (bool_decide_eq_true_2 _ Hi) in Hagain.
    rewrite (proj2 (Z.ltb_lt _ _) Hpos) in Hagain. done. }
  split_and!; [done|by rewrite Htk|].
  eexists. split; [exact Hb'|]. simpl. split; [lia|].
  rewrite Htk. by apply crossesHead_set_Remaining.
Qed.

Lemma stuck_step sd s :
  stuck sd s →
  ∃ m t s', stepOf sd s = Fill true m t s' ∧ TQuantity t = 0 ∧ stuck sd s'.
Proof.
  intros (Hpos & Hioc & m & Hb & Hr & Hx).
  destruct (stepOf_fills sd s m Hpos Hb Hx) as (again & t & s' & Hstep).
  pose proof (stepOf_Fill_inv _ _ _ _ _ _ Hstep)
    as (_ & _ & _ & Ht & _ & _ & Hq & _ & Hagain).
  rewrite Hr, Z.min_r in Hq, Ht by lia.
  rewrite (bool_decide_eq_false_2 _ Hioc) in Hagain. simpl in Hagain. subst again.
  exists m, t, s'. split_and!; [done|by rewrite Ht|].
  apply (after_fill_stuck sd s m t s' Hstep). lia.
Qed.

Lemma stuck_never_leaves sd fuel : ∀ s, stuck sd s → runLoop (stepOf sd) fuel s = None.
Proof.
  induction fuel as [|n IH]; intros s Hs; [done|].
  destruct (stuck_step sd s Hs) as (m & t & s' & Hstep & _ & Hs').
  simpl. rewrite Hstep. by apply IH.
Qed.

(** X6: the calls that never return.  A call for an order that is not IOC,
    wants a positive quantity and crosses the head of the opposite side
    while that head holds less than the order wants does not return, however
    many iterations it is given: for the buy and for the sell side. *)
Theorem call_spins fuel g ob o :
  spins (Side o) ob o →
  ProcessOrder fuel g ob o = None.
Proof.
  intros (Hq & Hioc & m & Hb & Hx & Hr).
  rewrite ProcessOrder_runLoop.
  destruct fuel as [|fuel]; [done|]. simpl.
  destruct (stepOf_fills (Side o) (startState g ob o) m Hq Hb Hx)
    as (again & t & s' & Hstep).
  rewrite Hstep.
  pose proof (stepOf_Fill_inv _ _ _ _ _ _ Hstep)
    as (_ & _ & _ & _ & _ & _ & Hq' & _ & Hagain).
  simpl in Hq', Hagain.
  rewrite (bool_decide_eq_false_2 _ Hioc) in Hagain. simpl in Hagain. subst again.
  rewrite (stuck_never_leaves (Side o) fuel s'); [done|].
  apply (after_fill_stuck _ _ _ _ _ Hstep). lia.
Qed.

Lemma call_spins_witness :
  let o := newOrder 2 100 10 Sell Limit "BTC-USD" in
  let ob := AddBid NewOrderBook (newOrder 1 101 4 Buy Limit "BTC-USD") in
  spins (Side o) ob o ∧ ProcessOrder 50 g0 ob o = None.
Proof.
  intros o ob.
  assert (spins (Side o) ob o) as H.
  { split_and!; [simpl; lia|done|]. eexists. split; [reflexivity|].
    split; [right; simpl; lia|simpl; lia]. }
  split; [exact H|]. exact (call_spins 50 g0 ob o H).
Defined.

Lemma returns_within_two g ob o :
  ¬ spins (Side o) ob o →
  ∃ r, ∀ fuel, ProcessOrder (S (S fuel)) g ob o = Some r.
Proof.
  intros Hns.
  assert (∀ s, stepOf (Side o) (startState g ob o) = Stop s →
               ∃ r, ∀ fuel, ProcessOrder (S (S fuel)) g ob o = Some r) as Hstop.
  { intros s Hs. eexists. intros fuel. rewrite ProcessOrder_runLoop.
    simpl. rewrite Hs. reflexivity. }
  destruct (stepOf (Side o) (startState g ob o)) as [s|again m t s'] eqn:Hstep;
    [by eapply Hstop|].
  pose proof (stepOf_Fill_inv _ _ _ _ _ _ Hstep)
    as (Hq & Hb & Hx & _ & _ & _ & Hq' & _ & Hagain).
  simpl in Hq, Hb, Hx, Hq', Hagain.
  destruct again.
  - assert (remainingQty s' ≤ 0) as Hdone.
    { destruct (decide (Type_ o = IOC)) as [Hi|Hi].
      - rewrite (bool_decide_eq_true_2 _ Hi) in Hagain. simpl in Hagain.
        symmetry in Hagain. apply negb_true_iff, Z.ltb_ge in Hagain. done.
      - destruct (Z.lt_ge_cases (Remaining m) (Quantity o)) as [Hlt|Hge].
        + destruct Hns. split_and!; [done|done|]. by exists m.
        + rewrite Hq', Z.min_l by lia. lia. }
    eexists. intros fuel. rewrite ProcessOrder_runLoop. simpl.
    rewrite Hstep, (stepOf_stops (Side o) s') by by left. reflexivity.
  - eexists. intros fuel. rewrite ProcessOrder_runLoop. simpl.
    rewrite Hstep. reflexivity.
Qed.



(** X8: at most one trade.  A call that returns has sent at most one trade. *)
Theorem call_sends_at_most_one_trade fuel g ob o r new :
  ProcessOrder fuel g ob o = Some r →
  processedTrades (out_book r) = processedTrades ob ++ new →
  (length new ≤ 1)%nat.
Proof.
  intros H Hnew.
  pose proof (ProcessOrder_summary _ _ _ _ _ H) as (new' & Hpt & _).
  rewrite Hpt in Hnew. apply app_inv_head in Hnew as ->.
  rewrite ProcessOrder_runLoop in H.
  destruct (runLoop _ _ _) as [sf|] eqn:Hrun; [|done].
  injection H as <-.
  assert (out sf = processedTrades ob ++ new) as Hout.
  { simpl in Hpt. destruct (rests sf); simpl in Hpt;
      [destruct (addOwn_sides (Side o) (set_processedTrades (book sf) (out sf))
                   (taker sf)) as (_ & _ & _ & Hpt'); rewrite Hpt' in Hpt|];
      exact Hpt. }
  destruct fuel as [|fuel]; [done|]. simpl in Hrun.
  destruct (stepOf (Side o) (startState g ob o)) as [s|again m t s'] eqn:Hstep.
  - injection Hrun as <-. apply stepOf_Stop_inv in Hstep as [-> _].
    simpl in Hout. rewrite <- (app_nil_r (processedTrades ob)) in Hout at 1.
    apply app_inv_head in Hout as <-. simpl. lia.
  - pose proof (stepOf_Fill_inv _ _ _ _ _ _ Hstep)
      as (_ & _ & _ & _ & _ & _ & _ & Hout1 & _).
    simpl in Hout1.
    assert (sf = s') as ->.
    { destruct again; [|by injection Hrun].
      destruct (Z.lt_ge_cases 0 (remainingQty s')) as [Hpos|Hle].
      - by rewrite (stuck_never_leaves (Side o) fuel s'
                      (after_fill_stuck _ _ _ _ _ Hstep Hpos)) in Hrun.
      - destruct fuel as [|fuel]; [done|]. simpl in Hrun.
        rewrite (stepOf_stops (Side o) s') in Hrun by by left.
        by injection Hrun. }
    rewrite Hout1 in Hout. apply app_inv_head in Hout as <-. simpl. lia.
Qed.

Lemma call_sends_at_most_one_trade_witness :
  let o := newOrder 2 100 4 Buy Limit "BTC-USD" in
  ∃ r new, ProcessOrder 2 g0 ask_100x5 o = Some r
           ∧ processedTrades (out_book r) = processedTrades ask_100x5 ++ new
           ∧ (length new ≤ 1)%nat.
Proof.
  intros o. eexists _, _. split; [reflexivity|]. split; [reflexivity|].
  exact (call_sends_at_most_one_trade 2 g0 ask_100x5 o _ [_] eq_refl eq_refl).
Defined.

(** ** The shape of a call that returns *)







(** X11: an IOC order.  A call for an IOC order always returns, within two
    iterations, and never adds the order to the book: its own side and the
    queue are as before. *)
Theorem ioc_returns_and_never_rests g ob o :
  Type_ o = IOC →
  ∃ r, (∀ fuel, ProcessOrder (S (S fuel)) g ob o = Some r)
       ∧ ownSide (Side o) (out_book r) = ownSide (Side o) ob
       ∧ incomingOrders (out_book r) = incomingOrders ob.
Proof.
  intros Hioc.
  destruct (returns_within_two g ob o) as [r Hr].
  { by intros (_ & Hn & _). }
  exists r. split; [done|].
  destruct (ProcessOrder_summary _ _ _ _ _ (Hr 0%nat))
    as (new & _ & _ & Hinc & Hown & _).
  split; [|done]. rewrite Hown, (bool_decide_eq_false_2 (Type_ o ≠ IOC)) by tauto.
  by rewrite andb_false_r.
Qed.

Lemma ioc_returns_and_never_rests_witness :
  let o := newOrder 2 100 10 Buy IOC "BTC-USD" in
  ∃ r, (∀ fuel, ProcessOrder (S (S fuel)) g0 ask_100x2x2 o = Some r)
       ∧ ownSide (Side o) (out_book r) = ownSide (Side o) ask_100x2x2
       ∧ incomingOrders (out_book r) = incomingOrders ask_100x2x2.
Proof.
  intros o. exact (ioc_returns_and_never_rests g0 ask_100x2x2 o eq_refl).
Defined.

(** ** The bounds of resting orders *)






(** ** The queue of a book *)





(** ** Depth and volume at a price *)

Lemma wrap_signed_small w z :
  0 < w → - 2 ^ (w - 1) ≤ z < 2 ^ (w - 1) → wrap_signed w z = z.
Proof.
  intros Hw Hz. unfold wrap_signed.
  assert (2 ^ w = 2 * 2 ^ (w - 1)) as Hp.
  { rewrite <- Z.pow_succ_r by lia. f_equal. lia. }
  rewrite Z.mod_small; lia.
Qed.

Lemma countAt_bounds price side : 0 ≤ countAt price side ≤ Z.of_nat (length side).
Proof.
  induction side as [|n side IH]; simpl; [lia|].
  destruct (Price (order n) =? price); lia.
Qed.

Lemma GetDepth_from side price : ∀ acc,
  0 ≤ acc →
  acc + Z.of_nat (length side) < 2 ^ 31 →
  fold_left (fun count n =>
               if Price (order n) =? price then wrap_signed 32 (count + 1)
               else count) side acc
  = acc + countAt price side.
Proof.
  induction side as [|n side IH]; intros acc Hlo Hhi; simpl; [lia|].
  simpl in Hhi. pose proof (countAt_bounds price side).
  destruct (Price (order n) =? price).
  - rewrite wrap_signed_small by (simpl; lia). rewrite IH; lia.
  - rewrite IH; lia.
Qed.

(** X15: what [GetDepth] counts.  On a side of fewer than 2^31 nodes,
    [GetDepth] is the number of nodes whose order has the given price;
    in particular it is 0 on an empty side and at a price nobody has. *)
Theorem GetDepth_counts side price :
  Z.of_nat (length side) < 2 ^ 31 →
  GetDepth side price = countAt price side.
Proof.
  intros H. unfold GetDepth. rewrite GetDepth_from; lia.
Qed.

Lemma GetDepth_counts_witness :
  let side := bids (fold_left AddBid [newOrder 1 99 1 Buy Limit "BTC-USD";
                                      newOrder 2 100 1 Buy Limit "BTC-USD";
                                      newOrder 3 99 4 Buy Limit "BTC-USD"]
                              NewOrderBook) in
  GetDepth side 99 = 2 ∧ GetDepth side 98 = 0.
Proof.
  intros side.
  assert (Z.of_nat (length side) < 2 ^ 31) as H by (simpl; lia).
  split; [exact (GetDepth_counts side 99 H)|exact (GetDepth_counts side 98 H)].
Defined.

Lemma quantityAt_bounds price side :
  Forall (fun n => 0 ≤ quantity n) side →
  0 ≤ quantityAt price side
  ≤ foldr (fun n acc => quantity n + acc) 0 side.
Proof.
  induction 1 as [|n side Hn _ IH]; simpl; [lia|].
  destruct (Price (order n) =? price); lia.
Qed.

Lemma GetTotalVolume_from side price : ∀ acc,
  Forall (fun n => 0 ≤ quantity n) side →
  0 ≤ acc →
  acc + foldr (fun n acc => quantity n + acc) 0 side < 2 ^ 63 →
  fold_left (fun volume n =>
               if Price (order n) =? price
               then wrap_signed 64 (volume + quantity n) else volume) side acc
  = acc + quantityAt price side.
Proof.
  induction side as [|n side IH]; intros acc Hall Hlo Hhi; simpl; [lia|].
  apply Forall_cons in Hall as [Hn Hall]. simpl in Hhi.
  pose proof (quantityAt_bounds price side Hall).
  destruct (Price (order n) =? price).
  - rewrite wrap_signed_small by (simpl; lia). rewrite IH; [lia|done|lia|lia].
  - rewrite IH; [lia|done|lia|lia].
Qed.

(** X16: what [GetTotalVolume] adds up.  On a side whose node quantities are
    not negative and add up to less than 2^63, [GetTotalVolume] is the sum
    of the node quantities (the quantities the orders had when they were
    added) of the nodes at the given price. *)
Theorem GetTotalVolume_sums side price :
  Forall (fun n => 0 ≤ quantity n) side →
  foldr (fun n acc => quantity n + acc) 0 side < 2 ^ 63 →
  GetTotalVolume side price = quantityAt price side.
Proof.
  intros Hall H. unfold GetTotalVolume. rewrite GetTotalVolume_from; [lia|done|lia|lia].
Qed.

Lemma GetTotalVolume_sums_witness :
  let side := bids (fold_left AddBid [newOrder 1 99 1 Buy Limit "BTC-USD";
                                      newOrder 2 100 1 Buy Limit "BTC-USD";
                                      newOrder 3 99 4 Buy Limit "BTC-USD"]
                              NewOrderBook) in
  GetTotalVolume side 99 = 5.
Proof.
  intros side.
  assert (Forall (fun n => 0 ≤ quantity n) side) as H1
    by (repeat constructor; simpl; lia).
  assert (foldr (fun n acc => quantity n + acc) 0 side < 2 ^ 63) as H2
    by (simpl; lia).
  exact (GetTotalVolume_sums side 99 H1 H2).
Defined.

Lemma depth_volume_by_key l1 l2 price :
  nodeKey <$> l1 = nodeKey <$> l2 →
  GetDepth l1 price = GetDepth l2 price
  ∧ GetTotalVolume l1 price = GetTotalVolume l2 price.
Proof.
  unfold GetDepth, GetTotalVolume. intros H.
  assert (∀ c v,
    fold_left (fun count n =>
                 if Price (order n) =? price then wrap_signed 32 (count + 1)
                 else count) l1 c
    = fold_left (fun count n =>
                   if Price (order n) =? price then wrap_signed 32 (count + 1)
                   else count) l2 c
    ∧ fold_left (fun volume n =>
                   if Price (order n) =? price
                   then wrap_signed 64 (volume + quantity n) else volume) l1 v
      = fold_left (fun volume n =>
                     if Price (order n) =? price
                     then wrap_signed 64 (volume + quantity n) else volume) l2 v)
    as Hgen; [|apply Hgen].
  revert l2 H. induction l1 as [|a l1 IH]; intros [|b l2] H c v; try done.
  rewrite !fmap_cons in H. unfold nodeKey at 1 3 in H.
  injection H as Hid Hp Hq Hrest.
  simpl. rewrite Hp, Hq. by apply IH.
Qed.

(** X17: fills do not show in depth and volume.  When a call returns, whatever
    it has filled, [GetDepth] and [GetTotalVolume] of the opposite side are
    at every price what they were before the call. *)
Theorem fills_invisible_to_depth fuel g ob o r price :
  ProcessOrder fuel g ob o = Some r →
  GetDepth (oppositeSide (Side o) (out_book r)) price
  = GetDepth (oppositeSide (Side o) ob) price
  ∧ GetTotalVolume (oppositeSide (Side o) (out_book r)) price
    = GetTotalVolume (oppositeSide (Side o) ob) price.
Proof.
  intros H. apply depth_volume_by_key.
  apply ProcessOrder_summary in H as (new & _ & _ & _ & _ & _ & _ & Hrest).
  destruct new as [|t new']; [by rewrite Hrest|].
  destruct Hrest as (m & Hb & _ & -> & _). rewrite bestOpposite_head in Hb.
  by rewrite (nodeKey_writeHead _ m _ Hb).
Qed.

Lemma fills_invisible_to_depth_witness :
  let o := newOrder 2 100 3 Buy Limit "BTC-USD" in
  ∃ r, ProcessOrder 2 g0 ask_100x5 o = Some r
       ∧ Remaining ∘ order <$> asks (out_book r) = [2]
       ∧ GetTotalVolume (asks (out_book r)) 100 = GetTotalVolume (asks ask_100x5) 100
       ∧ GetTotalVolume (asks ask_100x5) 100 = 5.
Proof.
  intros o. eexists. split; [reflexivity|]. split; [reflexivity|].
  split; [|reflexivity].
  exact (proj2 (fills_invisible_to_depth 2 g0 ask_100x5 o _ 100 eq_refl)).
Defined.

(** ** The engine's books *)


(** X18: routing to a registered book.  For an order whose instrument has a
    registered book, [matchOrder] does not panic: it puts the order at the
    end of that book's queue and leaves the book's sides, every other book
    and the engine's channels as they were. *)
Theorem matchOrder_routes m o bk j :
  getOrderBook m (Instrument o) = Some bk →
  ∃ m', matchOrder m o = Sent m'
        ∧ (∃ bk', getOrderBook m' (Instrument o) = Some bk'
                  ∧ incomingOrders bk' = incomingOrders bk ++ [o]
                  ∧ bids bk' = bids bk ∧ asks bk' = asks bk
                  ∧ processedTrades bk' = processedTrades bk)
        ∧ (j ≠ Instrument o → getOrderBook m' j = getOrderBook m j)
        ∧ incoming m' = incoming m ∧ trades m' = trades m.
Proof.
  intros H. unfold matchOrder. rewrite H. eexists. split; [reflexivity|].
  unfold getOrderBook. simpl. split_and!; try done.
  - eexists. split; [apply lookup_insert_eq|]. done.
  - intros Hj. by apply lookup_insert_ne.
Qed.

Lemma matchOrder_routes_witness :
  let o := newOrder 7 10 1 Buy Limit "AAPL" in
  ∃ m', matchOrder mainEngine o = Sent m'
        ∧ (∃ bk', getOrderBook m' "AAPL" = Some bk'
                  ∧ incomingOrders bk' = [o] ∧ bids bk' = [] ∧ asks bk' = []
                  ∧ processedTrades bk' = [])
        ∧ getOrderBook m' "GOOGL" = getOrderBook mainEngine "GOOGL".
Proof.
  intros o.
  assert (getOrderBook mainEngine (Instrument o) = Some NewOrderBook) as H
    by (vm_compute; reflexivity).
  destruct (matchOrder_routes mainEngine o NewOrderBook "GOOGL" H)
    as (m' & Hm & Hbk & Hj & _).
  exists m'. split; [exact Hm|]. split; [exact Hbk|].
  apply Hj. discriminate.
Defined.

(** X19: the lazy lookup.  [getOrderBook] of the drafts that keep a Go map
    never fails: after it the instrument has the book it returned, a book
    that was registered before is never replaced, the channels are
    untouched, and asking again changes nothing more. *)
Theorem lazy_lookup_creates_once m i j bk :
  let r := getOrderBook_lazy m i in
  orderBooks r.2 !! i = Some r.1
  ∧ (orderBooks m !! j = Some bk → orderBooks r.2 !! j = Some bk)
  ∧ (orderBooks m !! i = None → r.1 = NewOrderBook)
  ∧ getOrderBook_lazy r.2 i = r
  ∧ incoming r.2 = incoming m ∧ trades r.2 = trades m.
Proof.
  unfold getOrderBook_lazy.
  destruct (orderBooks m !! i) as [b|] eqn:Hi; simpl.
  - rewrite Hi. by split_and!.
  - rewrite lookup_insert_eq. split_and!; try done.
    intros Hj. rewrite lookup_insert_ne; [done|]. by intros ->; rewrite Hi in Hj.
Qed.

(** ** Snapshots *)

Lemma calculateStats_fold levels : ∀ q n,
  0 ≤ n →
  Forall (fun level => 0 ≤ Orders level) levels →
  n + sumOrders levels < 2 ^ 63 →
  fold_left (fun '(q, n) level =>
               (q + LQuantity level, wrap_signed 64 (n + Orders level)))
            levels (q, n)
  = (q + sumQuantity levels, n + sumOrders levels).
Proof.
  induction levels as [|level levels IH]; intros q n Hn Hall Hb; simpl.
  - f_equal; lia.
  - apply Forall_cons in Hall as [Hl Hall]. simpl in Hb.
    assert (0 ≤ sumOrders levels) as Hs.
    { clear -Hall. induction Hall; simpl; [lia|]. unfold sumOrders in *. simpl. lia. }
    rewrite wrap_signed_small by (simpl; lia).
    rewrite IH; [f_equal; lia|lia|done|lia].
Qed.

(** X20: what [calculateStats] computes.  For a depth view whose order counts
    are not negative and add up to less than 2^63 on each side, the totals
    are the sums over the levels of each side; the spread and the mid price
    are 0 when a side is empty, and otherwise the first ask price less the
    first bid price and half their sum. *)
Theorem calculateStats_values depth :
  Forall (fun level => 0 ≤ Orders level) (Bids depth) →
  Forall (fun level => 0 ≤ Orders level) (Asks depth) →
  sumOrders (Bids depth) < 2 ^ 63 →
  sumOrders (Asks depth) < 2 ^ 63 →
  let stats := calculateStats depth in
  TotalBidQuantity stats = sumQuantity (Bids depth)
  ∧ TotalAskQuantity stats = sumQuantity (Asks depth)
  ∧ BidOrders stats = sumOrders (Bids depth)
  ∧ AskOrders stats = sumOrders (Asks depth)
  ∧ match Bids depth, Asks depth with
    | bestBid :: _, bestAsk :: _ =>
      Spread stats = LPrice bestAsk - LPrice bestBid
      ∧ MidPrice stats = Qmake (LPrice bestBid + LPrice bestAsk) 2
    | _, _ => Spread stats = 0 ∧ MidPrice stats = 0%Q
    end.
Proof.
  intros Hb Ha Hbs Has. unfold calculateStats.
  rewrite (calculateStats_fold (Bids depth) 0 0) by (done || lia).
  rewrite (calculateStats_fold (Asks depth) 0 0) by (done || lia).
  destruct (Bids depth), (Asks depth); simpl; split_and!; done.
Qed.

Lemma calculateStats_values_witness :
  let depth := mkSnapshot "BTC-USD" 0 0
                 [mkLevel 99 5 2; mkLevel 98 1 1] [mkLevel 101 4 3] zeroStats in
  let stats := calculateStats depth in
  TotalBidQuantity stats = 6 ∧ TotalAskQuantity stats = 4
  ∧ BidOrders stats = 3 ∧ AskOrders stats = 3
  ∧ Spread stats = 2 ∧ MidPrice stats = Qmake 200 2.
Proof.
  intros depth stats.
  assert (Forall (fun level => 0 ≤ Orders level) (Bids depth)) as H1
    by (repeat constructor; simpl; lia).
  assert (Forall (fun level => 0 ≤ Orders level) (Asks depth)) as H2
    by (repeat constructor; simpl; lia).
  assert (sumOrders (Bids depth) < 2 ^ 63) as H3 by (simpl; lia).
  assert (sumOrders (Asks depth) < 2 ^ 63) as H4 by (simpl; lia).
  destruct (calculateStats_values depth H1 H2 H3 H4)
    as (A & B & C & D & E & F).
  split_and!; [exact A|exact B|exact C|exact D|exact E|exact F].
Defined.

Lemma takeSnapshotsOf_shape reqs : ∀ sm,
  let r := takeSnapshotsOf sm reqs in
  SInstrument <$> r.1 = (fun q : Request => q.1.2) <$> reqs
  ∧ Forall (fun s => Bids s = [] ∧ Asks s = [] ∧ Stats s = zeroStats) r.1
  ∧ sm_orderBooks r.2 = sm_orderBooks sm
  ∧ snapshots r.2 = snapshots sm
  ∧ sequenceID r.2
    = Nat.iter (length reqs) (fun c => AddUint64 c 1) (sequenceID sm).
Proof.
  induction reqs as [|[[now ins] bk] reqs IH]; intros sm; [done|].
  simpl.
  destruct (takeSnapshotsOf _ reqs) as [snaps sm2] eqn:Hrec.
  specialize (IH (mkManager (sm_orderBooks sm) (snapshots sm)
                            (AddUint64 (sequenceID sm) 1))).
  rewrite Hrec in IH. simpl in IH. destruct IH as (I1 & I2 & I3 & I4 & I5).
  split_and!.
  - simpl. f_equal. exact I1.
  - simpl. apply Forall_cons. by split.
  - done.
  - done.
  - simpl. by rewrite I5, iter_bump.
Qed.

Lemma TakeSnapshots_lookup sm now k s :
  GetSnapshot (TakeSnapshots sm now) k = Some s →
  SInstrument s = k ∧ Bids s = [] ∧ Asks s = [] ∧ Stats s = zeroStats.
Proof.
  unfold GetSnapshot, TakeSnapshots.
  set (reqs := _ <$> map_to_list (sm_orderBooks sm)).
  pose proof (takeSnapshotsOf_shape reqs sm) as (_ & Hall & _).
  destruct (takeSnapshotsOf sm reqs) as [snaps sm1]. simpl in *.
  intros H. apply elem_of_list_to_map_2 in H.
  apply list_elem_of_fmap in H as (s' & [= -> ->] & Hin).
  split; [done|]. by apply (proj1 (Forall_forall _ _) Hall).
Qed.

Lemma TakeSnapshots_domain sm now k :
  is_Some (GetSnapshot (TakeSnapshots sm now) k) ↔ is_Some (sm_orderBooks sm !! k).
Proof.
  unfold GetSnapshot, TakeSnapshots.
  set (reqs := _ <$> map_to_list (sm_orderBooks sm)).
  pose proof (takeSnapshotsOf_shape reqs sm) as (Hins & _).
  destruct (takeSnapshotsOf sm reqs) as [snaps sm1]. simpl in *.
  assert (((fun s => (SInstrument s, s)) <$> snaps).*1
          = (map_to_list (sm_orderBooks sm)).*1) as Hkeys.
  { rewrite <- list_fmap_compose. change (fst ∘ _) with SInstrument.
    rewrite Hins. unfold reqs. rewrite <- list_fmap_compose.
    apply list_fmap_ext. by intros _ [??] _. }
  split.
  - intros [s Hs]. apply elem_of_list_to_map_2 in Hs.
    assert (k ∈ ((fun s => (SInstrument s, s)) <$> snaps).*1) as Hin
      by (apply list_elem_of_fmap; by exists (k, s)).
    rewrite Hkeys in Hin. apply list_elem_of_fmap in Hin as ([k' b] & -> & Hin).
    apply elem_of_map_to_list in Hin. by exists b.
  - intros [b Hb].
    destruct (list_to_map _ !! k) as [s|] eqn:E; [by exists s|].
    apply not_elem_of_list_to_map_2 in E. destruct E. rewrite Hkeys.
    apply list_elem_of_fmap. exists (k, b). split; [done|].
    by apply elem_of_map_to_list.
Qed.

(** X21: what a snapshot cycle publishes.  After [TakeSnapshots] there is a
    snapshot for exactly the registered instruments, each under its own
    instrument; whatever the books hold, each has no bid and no ask level,
    all statistics 0 and no best price on either side; the registered books
    are untouched and the sequence counter has been bumped once per
    registered book. *)
Theorem TakeSnapshots_publishes sm now k :
  let sm' := TakeSnapshots sm now in
  (is_Some (GetSnapshot sm' k) ↔ is_Some (sm_orderBooks sm !! k))
  ∧ (∀ s, GetSnapshot sm' k = Some s →
          SInstrument s = k ∧ Bids s = [] ∧ Asks s = [] ∧ Stats s = zeroStats
          ∧ ∀ sd, GetBestPrice s sd = (0, false))
  ∧ sm_orderBooks sm' = sm_orderBooks sm
  ∧ sequenceID sm'
    = Nat.iter (size (sm_orderBooks sm)) (fun c => AddUint64 c 1) (sequenceID sm).
Proof.
  simpl. split_and!.
  - apply TakeSnapshots_domain.
  - intros s Hs. apply TakeSnapshots_lookup in Hs as (H1 & H2 & H3 & H4).
    split_and!; try done. intros sd. unfold GetBestPrice, GetPriceLevels.
    by destruct (bool_decide _); rewrite ?H2, ?H3.
  - unfold TakeSnapshots.
    set (reqs := _ <$> map_to_list (sm_orderBooks sm)).
    pose proof (takeSnapshotsOf_shape reqs sm) as (_ & _ & H & _).
    by destruct (takeSnapshotsOf sm reqs).
  - unfold TakeSnapshots.
    set (reqs := _ <$> map_to_list (sm_orderBooks sm)).
    pose proof (takeSnapshotsOf_shape reqs sm) as (_ & _ & _ & _ & H).
    destruct (takeSnapshotsOf sm reqs). simpl in *. rewrite H.
    unfold reqs. by rewrite length_fmap, length_map_to_list.
Qed.

(** X22: a registered book shows at the next cycle.  [RegisterOrderBook] of
    the snapshot manager changes no published snapshot; after the next
    [TakeSnapshots] the instrument has a snapshot, and an instrument that
    has no registered book has none, whatever was published before. *)
Theorem registered_book_shows_next_cycle sm i j bk now :
  GetSnapshot (sm_RegisterOrderBook sm i bk) j = GetSnapshot sm j
  ∧ is_Some (GetSnapshot (TakeSnapshots (sm_RegisterOrderBook sm i bk) now) i)
  ∧ (sm_orderBooks sm !! j = None → GetSnapshot (TakeSnapshots sm now) j = None).
Proof.
  split_and!; [done| |].
  - apply TakeSnapshots_domain. simpl. rewrite lookup_insert_eq. by eexists.
  - intros Hj. apply eq_None_not_Some. rewrite TakeSnapshots_domain, Hj.
    by intros [? ?].
Qed.

(** ** Validation and the gRPC adapter *)

(** X23: what [Validate] accepts.  An order is accepted exactly when its
    quantity is positive, its price is positive if it is a limit order, and
    its instrument is not empty; the price of an order of any other type is
    not looked at. *)
Theorem Validate_accepts_iff o :
  Validate o = None
  ↔ 0 < Quantity o ∧ (Type_ o = Limit → 0 < Price o) ∧ Instrument o ≠ ""%string.
Proof.
  unfold Validate.
  destruct (Z.leb_spec (Quantity o) 0) as [Hq|Hq].
  { split; [done|lia]. }
  destruct (decide (Type_ o = Limit)) as [Hl|Hl].
  - rewrite (bool_decide_eq_true_2 _ Hl). simpl.
    destruct (Z.leb_spec (Price o) 0) as [Hp|Hp].
    { split; [done|]. intros (_ & H & _). specialize (H Hl). lia. }
    destruct (Instrument o) as [|c rest]; simpl.
    + split; [done|]. by intros (_ & _ & H).
    + split; [|done]. intros _. split_and!; [done|done|discriminate].
  - rewrite (bool_decide_eq_false_2 _ Hl). simpl.
    destruct (Instrument o) as [|c rest]; simpl.
    + split; [done|]. by intros (_ & _ & H).
    + split; [|done]. intros _. split_and!; [done|done|discriminate].
Qed.

(** X24: the unary submission.  [SubmitOrder] of the adapter either answers
    with an error and leaves the engine as it was, or puts exactly one order
    at the end of the engine's incoming channel and answers PENDING with the
    request's id; that order passes [Validate], has the request's id, price,
    quantity and instrument, [Remaining] equal to its quantity and status
    [New]. *)
Theorem grpc_submit_validates m req :
  let r := protocol.SubmitOrder m req in
  (∃ e, r.2 = inl e ∧ r.1 = m)
  ∨ (∃ o, r.2 = inr (protocol.mkResponse (protocol.OrderId req)
                                         protocol.OrderStatus_PENDING)
          ∧ incoming r.1 = incoming m ++ [o]
          ∧ orderBooks r.1 = orderBooks m ∧ trades r.1 = trades m
          ∧ Validate o = None
          ∧ ID o = protocol.OrderId req ∧ Price o = protocol.RPrice req
          ∧ Quantity o = protocol.RQuantity req
          ∧ Instrument o = protocol.RInstrument req
          ∧ Remaining o = Quantity o ∧ Status o = New).
Proof.
  unfold protocol.SubmitOrder.
  destruct (protocol.convertOrderRequest req) as [e|o] eqn:Hc; simpl.
  { left. by eexists. }
  destruct (Validate o) as [e|] eqn:Hv; simpl.
  { left. by eexists. }
  right. exists o. unfold protocol.convertOrderRequest in Hc.
  destruct (protocol.convertOrderType _); [done|].
  destruct (protocol.convertOrderSide _); [done|].
  injection Hc as <-. by split_and!.
Qed.

(** X25: the stream does not validate.  A request that converts to an order
    which [Validate] refuses is refused by the unary [SubmitOrder], engine
    unchanged, but a turn of [SubmitOrderStream] puts that order on the
    engine's incoming channel and answers PENDING. *)
Theorem grpc_stream_skips_validation m req o e :
  protocol.convertOrderRequest req = inr o →
  Validate o = Some e →
  protocol.SubmitOrder m req = (m, inl (protocol.ValidationFailed e))
  ∧ protocol.SubmitOrderStream_turn m req
    = (engine.SubmitOrder m o,
       protocol.mkResponse (ID o) protocol.OrderStatus_PENDING)
  ∧ incoming (protocol.SubmitOrderStream_turn m req).1 = incoming m ++ [o].
Proof.
  intros Hc Hv. unfold protocol.SubmitOrder, protocol.SubmitOrderStream_turn.
  by rewrite Hc, Hv.
Qed.

Lemma grpc_stream_skips_validation_witness :
  let req := protocol.mkRequest 9 100 0 protocol.OrderSide_BUY
                                protocol.OrderType_LIMIT "BTC-USD" in
  let o := mkOrder 9 100 0 0 Buy Limit "BTC-USD" New in
  protocol.SubmitOrder mainEngine req
  = (mainEngine, inl (protocol.ValidationFailed ErrInvalidQuantity))
  ∧ incoming (protocol.SubmitOrderStream_turn mainEngine req).1 = [o].
Proof.
  intros req o.
  destruct (grpc_stream_skips_validation mainEngine req o ErrInvalidQuantity
              eq_refl eq_refl) as (H1 & _ & H3).
  split; [exact H1|exact H3].
Defined.

Lemma SubmitOrderStream_from reqs : ∀ m sent,
  let r := fold_left (fun '(m1, sent) req =>
                        let '(m2, resp) := protocol.SubmitOrderStream_turn m1 req in
                        (m2, sent ++ [resp]))
                     reqs (m, sent) in
  incoming r.1
  = incoming m
    ++ omap (fun req => match protocol.convertOrderRequest req with
                        | inr o => Some o
                        | inl _ => None
                        end) reqs
  ∧ orderBooks r.1 = orderBooks m ∧ trades r.1 = trades m
  ∧ length r.2 = (length sent + length reqs)%nat.
Proof.
  induction reqs as [|req reqs IH]; intros m sent.
  - simpl. rewrite app_nil_r. split_and!; [done|done|done|lia].
  - cbn [fold_left omap list_omap length].
    destruct (protocol.SubmitOrderStream_turn m req) as [m2 resp] eqn:Hturn.
    specialize (IH m2 (sent ++ [resp])). cbv zeta in IH.
    destruct IH as (I1 & I2 & I3 & I4). cbv zeta.
    unfold protocol.SubmitOrderStream_turn in Hturn.
    destruct (protocol.convertOrderRequest req) as [e|o];
      injection Hturn as <- <-.
    + split_and!; [done|done|done|]. rewrite I4, length_app. simpl. lia.
    + simpl in I1, I2, I3. split_and!; [|done|done|].
      * rewrite I1. by rewrite <- app_assoc.
      * rewrite I4, length_app. simpl. lia.
Qed.

(** X26: a stream of requests.  [SubmitOrderStream] answers every request
    once, puts on the engine's incoming channel, in the order of the
    requests, the orders of exactly those requests whose type and side
    convert, and touches neither the books nor the trades. *)
Theorem grpc_stream_enqueues_in_order m reqs :
  let r := protocol.SubmitOrderStream m reqs in
  incoming r.1
  = incoming m
    ++ omap (fun req => match protocol.convertOrderRequest req with
                        | inr o => Some o
                        | inl _ => None
                        end) reqs
  ∧ orderBooks r.1 = orderBooks m ∧ trades r.1 = trades m
  ∧ length r.2 = length reqs.
Proof.
  unfold protocol.SubmitOrderStream.
  destruct (SubmitOrderStream_from reqs m []) as (H1 & H2 & H3 & H4).
  by split_and!.
Qed.

(** X27: sides through the adapter.  Converting a side to the wire and back
    gives the side; converting a wire side to the engine and back gives the
    wire side when it is BUY or SELL, and any other wire value is refused. *)
Theorem grpc_side_round_trip sd ws :
  protocol.convertOrderSide (protocol.convertOrderSideToProto sd) = inr sd
  ∧ match protocol.convertOrderSide ws with
    | inr sd' => protocol.convertOrderSideToProto sd' = ws
    | inl e => e = protocol.UnknownOrderSide ws
               ∧ ws ≠ protocol.OrderSide_BUY ∧ ws ≠ protocol.OrderSide_SELL
    end.
Proof. split; [by destruct sd|by destruct ws]. Qed.

(** ** The draft that matches in the engine *)

(** A step does not read the channel it sends to. *)
Lemma stepOf_withOut sd s ch :
  stepOf sd (withOut s ch)
  = match stepOf sd s with
    | Stop s' => Stop (withOut s' ch)
    | Fill again m t s' => Fill again m t (withOut s' (ch ++ [t]))
    end.
Proof.
  destruct sd; unfold stepOf, buyStep, sellStep, withOut;
    cbn [book taker remainingQty out counters].
  - destruct (0 <? remainingQty s); [|done].
    destruct (GetBestAsk (book s)) as [m|]; [|done].
    destruct (bool_decide (Type_ (taker s) ≠ Market) && (Price (taker s) <? Price m));
      [done|].
    match goal with
    | |- context [createTradeDraft ?a ?b ?c ?d ?e] =>
      destruct (createTradeDraft a b c d e) as [t g]
    end. simpl.
    by match goal with |- context [if ?c then _ else _] => destruct c end.
  - destruct (0 <? remainingQty s); [|done].
    destruct (GetBestBid (book s)) as [m|]; [|done].
    destruct (bool_decide (Type_ (taker s) ≠ Market) && (Price m <? Price (taker s)));
      [done|].
    match goal with
    | |- context [createTradeDraft ?a ?b ?c ?d ?e] =>
      destruct (createTradeDraft a b c d e) as [t g]
    end. simpl.
    by match goal with |- context [if ?c then _ else _] => destruct c end.
Qed.

Lemma withOut_withOut s ch1 ch2 : withOut (withOut s ch1) ch2 = withOut s ch2.
Proof. done. Qed.

(** The loop on another channel: the same run, the same trades sent there. *)
Lemma runLoop_withOut sd fuel : ∀ s ch,
  runLoop (stepOf sd) fuel (withOut s ch)
  = match runLoop (stepOf sd) fuel s with
    | None => None
    | Some sf => Some (withOut sf (ch ++ drop (length (out s)) (out sf)))
    end.
Proof.
  induction fuel as [|fuel IH]; intros s ch; [done|].
  simpl. rewrite stepOf_withOut.
  destruct (stepOf sd s) as [s'|again m t s'] eqn:Hstep.
  - apply stepOf_Stop_inv in Hstep as [-> _].
    by rewrite drop_all, app_nil_r.
  - pose proof (stepOf_Fill_inv _ _ _ _ _ _ Hstep)
      as (_ & _ & _ & _ & _ & _ & _ & Hout & _).
    destruct again.
    + rewrite IH. destruct (runLoop (stepOf sd) fuel s') as [sf|] eqn:Hrun; [|done].
      apply runLoop_summary in Hrun as (new & Hnew & _).
      by rewrite Hnew, Hout, drop_app_length, <- !app_assoc, drop_app_length.
    + by rewrite Hout, drop_app_length.
Qed.

(** X28: the draft that matches in the engine.  [matchOrder] of the last
    draft runs, on the book the lazy lookup gives, the call that
    [ProcessOrders] makes: it returns when that call returns and not
    otherwise, with the same order and counters and the same bids and asks;
    the trades go to the engine's trade channel and not to the book's, and
    no other book is touched. *)
Theorem direct_draft_runs_the_same_call fuel g m o :
  let bk := (getOrderBook_lazy m (Instrument o)).1 in
  (ProcessOrder fuel g bk o = None → matchOrder_direct fuel g m o = None)
  ∧ (∀ r new,
       ProcessOrder fuel g bk o = Some r →
       processedTrades (out_book r) = processedTrades bk ++ new →
       ∃ m' bk',
         matchOrder_direct fuel g m o = Some (m', out_order r, out_counters r)
         ∧ trades m' = trades m ++ new
         ∧ incoming m' = incoming m
         ∧ orderBooks m' !! Instrument o = Some bk'
         ∧ bids bk' = bids (out_book r) ∧ asks bk' = asks (out_book r)
         ∧ incomingOrders bk' = incomingOrders (out_book r)
         ∧ processedTrades bk' = processedTrades bk
         ∧ ∀ j bkj, j ≠ Instrument o →
             orderBooks m !! j = Some bkj → orderBooks m' !! j = Some bkj).
Proof.
  intros bk.
  assert (matchOrder_direct fuel g m o
          = match runLoop (stepOf (Side o)) fuel
                          (withOut (startState g bk o) (trades m)) with
            | None => None
            | Some s =>
              Some (mkEngine (<[Instrument o :=
                                  if rests s then addOwn (Side o) (book s) (taker s)
                                  else book s]> (orderBooks m))
                             (incoming m) (out s),
                    taker s, counters s)
            end) as Hdirect.
  { unfold matchOrder_direct, matchBuyOrder, matchSellOrder, withOut, startState.
    subst bk. unfold getOrderBook_lazy.
    destruct (orderBooks m !! Instrument o) as [b|] eqn:Hb; simpl;
      destruct (Side o); simpl;
      match goal with
      | |- context [runLoop ?f ?n ?s] => destruct (runLoop f n s)
      end; simpl; try done;
      by rewrite insert_insert_eq. }
  rewrite Hdirect, runLoop_withOut, ProcessOrder_runLoop.
  destruct (runLoop (stepOf (Side o)) fuel (startState g bk o)) as [sf|] eqn:Hrun;
    [|by split].
  split; [done|]. intros r new [= <-] Hnew.
  pose proof (runLoop_summary _ _ _ _ Hrun)
    as (new' & Hout & _ & _ & _ & _ & Hpt & _).
  assert (new = new') as <-.
  { simpl in Hnew. destruct (rests sf); simpl in Hnew.
    - destruct (Side o); simpl in Hnew; rewrite Hout in Hnew;
        by apply app_inv_head in Hnew.
    - rewrite Hout in Hnew. by apply app_inv_head in Hnew. }
  eexists _, _. split; [reflexivity|]. simpl.
  rewrite Hout. simpl. rewrite drop_app_length, lookup_insert_eq.
  change (rests (withOut sf (trades m ++ new))) with (rests sf).
  split_and!; try done.
  - destruct (rests sf); [|done]. by destruct (Side o).
  - destruct (rests sf); [|done]. by destruct (Side o).
  - destruct (rests sf); [|done]. by destruct (Side o).
  - destruct (rests sf); [by destruct (Side o)|done].
  - intros j bkj Hj Hl. by rewrite lookup_insert_ne.
Qed.

(** X29: a trade on the wire.  [convertTradeToProto] keeps every field it
    copies apart: two trades with the same message have the same ids, price,
    quantity, orders, instrument and side. *)
Theorem trade_to_proto_injective t1 t2 :
  protocol.convertTradeToProto t1 = protocol.convertTradeToProto t2 → t1 = t2.
Proof.
  destruct t1, t2. unfold protocol.convertTradeToProto. simpl.
  intros [= -> -> -> -> -> -> -> Hside]. f_equal.
  by destruct TSide0, TSide1.
Qed.

Lemma trade_to_proto_injective_witness :
  mkTrade 1 1 100 5 7 9 "BTC-USD" Buy = mkTrade 1 1 100 5 7 9 "BTC-USD" Buy.
Proof. by apply trade_to_proto_injective. Defined.
